(** * pylandtemp: land-surface emissivity from NDVI

    A shallow embedding of [emissivity/emissivity.py].

    - Rasters are numpy arrays of dtype float64 (numpy's default): a shape
      and a row-major buffer of Rocq's primitive binary64 floats, so every
      constant, comparison and arithmetic operation below is the IEEE 754
      operation the Python code performs.  A pixel is addressed by its
      offset in the buffer.
    - Instances of the emissivity classes are records; a method that mutates
      [self] is a computation in a state-and-exception monad over the
      instance, so the state an exception leaves behind stays observable.
    - [assert] statements are live (the interpreter's default mode): a failed
      [assert c, ValueError(msg)] raises [AssertionError(ValueError(msg))].
    - [emissivity.utils] is not part of the modelled file; its two functions
      are the fields of the class [Utils]. *)

From Stdlib Require Import String Ascii ZArith List Bool Lia Arith.
From Stdlib Require Import Floats DecimalString.
Import ListNotations.

Set Warnings "-inexact-float".

Local Open Scope float_scope.

(** ** Floating-point vocabulary *)

Module F64.

(** Python's [x >= y] and [x > y]. *)
Definition geb (x y : float) : bool := (y <=? x).
Definition gtb (x y : float) : bool := (y <? x).

(** numpy evaluates [a ** 2] through its squaring fast path, [a * a]. *)
Definition square (x : float) : float := x * x.

(** Neither NaN nor an infinity. *)
Definition finite (c : spec_float) : Prop :=
  (exists s, c = S754_zero s) \/ (exists s m e, c = S754_finite s m e).

End F64.

(** ** Python exceptions *)

Inductive exception : Type :=
| ValueError (msg : string)
| NotImplementedError (msg : string)
| IndexError (msg : string)
| AttributeError (msg : string)
| TypeError (msg : string)
| AssertionError (arg : exception).

Inductive result (A : Type) : Type :=
| Ok (a : A)
| Raise (e : exception).

Arguments Ok {A} a.
Arguments Raise {A} e.

(** ** The fragment of numpy the module uses *)

Module np.

Record ndarray (A : Type) : Type := array { shape : list nat; data : list A }.

Arguments array {A} shape data.
Arguments shape {A} n.
Arguments data {A} n.

(** Number of elements of an array of the given shape. *)
Definition size_of (sh : list nat) : nat := fold_right Nat.mul 1%nat sh.

(** The invariant numpy maintains between a shape and its buffer. *)
Definition wf {A} (a : ndarray A) : Prop :=
  length (data a) = size_of (shape a).

(** [a.shape == b.shape], a comparison of tuples. *)
Fixpoint shape_eqb (s1 s2 : list nat) : bool :=
  match s1, s2 with
  | [], [] => true
  | d1 :: r1, d2 :: r2 => Nat.eqb d1 d2 && shape_eqb r1 r2
  | _, _ => false
  end.

(** The value of the pixel stored at row-major offset [k]. *)
Definition pixel {A} (a : ndarray A) (k : nat) : option A :=
  nth_error (data a) k.

Definition zeros_like (a : ndarray float) : ndarray float :=
  array (shape a) (repeat 0 (size_of (shape a))).

Definition isnan (a : ndarray float) : ndarray bool :=
  array (shape a) (map is_nan (data a)).

(** An operator applied between an array and a Python scalar. *)
Definition map1 {A B} (f : A -> B) (a : ndarray A) : ndarray B :=
  array (shape a) (map f (data a)).

(** An operator applied between two arrays.  Every call site combines two
    arrays of one shape; operands of different shapes are refused here,
    numpy's broadcasting between them is not modelled. *)
Definition map2 {A B C} (f : A -> B -> C) (a : ndarray A) (b : ndarray B)
  : result (ndarray C) :=
  if shape_eqb (shape a) (shape b)
  then Ok (array (shape a)
             (map (fun p : A * B => f (fst p) (snd p))
                (combine (data a) (data b))))
  else Raise (ValueError "operands could not be broadcast together").

(** A multi-index, one coordinate per axis. *)
Definition index : Type := list nat.

(** Row-major offset of a multi-index, [None] when a coordinate is out of
    bounds or the number of coordinates is not the number of axes. *)
Fixpoint ravel (sh : list nat) (ix : index) : option nat :=
  match sh, ix with
  | [], [] => Some 0%nat
  | d :: sh', i :: ix' =>
      if (i <? d)%nat
      then option_map (fun r => (i * size_of sh' + r)%nat) (ravel sh' ix')
      else None
  | _, _ => None
  end.

Fixpoint unravel (sh : list nat) (k : nat) : index :=
  match sh with
  | [] => []
  | _ :: sh' => (k / size_of sh')%nat :: unravel sh' (k mod size_of sh')%nat
  end.

(** Offsets, counted from [k], of the true entries of a buffer. *)
Fixpoint nonzero_from (k : nat) (l : list bool) : list nat :=
  match l with
  | [] => []
  | b :: l' =>
      if b then k :: nonzero_from (S k) l' else nonzero_from (S k) l'
  end.

(** [np.where(mask)]: the coordinates of the true entries in row-major
    order.  numpy returns one coordinate array per axis; the list of
    multi-indices is their zip. *)
Definition where_ (mask : ndarray bool) : list index :=
  map (unravel (shape mask)) (nonzero_from 0 (data mask)).

Fixpoint mapM {A B} (f : A -> option B) (l : list A) : option (list B) :=
  match l with
  | [] => Some []
  | a :: l' =>
      match f a, mapM f l' with
      | Some b, Some bs => Some (b :: bs)
      | _, _ => None
      end
  end.

(** Offsets addressed by a list of multi-indices; every one is checked
    against the shape and the buffer before anything is read or written. *)
Definition offsets {A} (a : ndarray A) (ixs : list index) : option (list nat) :=
  mapM (fun ix =>
          match ravel (shape a) ix with
          | Some k => if (k <? length (data a))%nat then Some k else None
          | None => None
          end) ixs.

Fixpoint list_set {A} (l : list A) (k : nat) (v : A) : list A :=
  match l, k with
  | [], _ => []
  | _ :: l', O => v :: l'
  | x :: l', S k' => x :: list_set l' k' v
  end.

Definition out_of_bounds : exception :=
  IndexError "index is out of bounds".

(** [a[ixs]] with [ixs] the result of [np.where]: a one-dimensional array. *)
Definition getitem {A} (a : ndarray A) (ixs : list index)
  : result (ndarray A) :=
  match offsets a ixs with
  | Some ks =>
      match mapM (nth_error (data a)) ks with
      | Some vs => Ok (array [length ixs] vs)
      | None => Raise out_of_bounds
      end
  | None => Raise out_of_bounds
  end.

(** [a[ixs] = v] for a scalar [v]. *)
Definition setitem_scalar {A} (a : ndarray A) (ixs : list index) (v : A)
  : result (ndarray A) :=
  match offsets a ixs with
  | Some ks =>
      Ok (array (shape a) (fold_left (fun d k => list_set d k v) ks (data a)))
  | None => Raise out_of_bounds
  end.

(** [a[ixs] = vs] for a one-dimensional array [vs] with one value per
    index (the values are always gathered at [ixs] itself). *)
Definition setitem_array {A} (a : ndarray A) (ixs : list index)
  (vs : ndarray A) : result (ndarray A) :=
  match offsets a ixs with
  | Some ks =>
      if shape_eqb (shape vs) [length ixs]
      then Ok (array (shape a)
                 (fold_left (fun d (kv : nat * A) => list_set d (fst kv) (snd kv))
                    (combine ks (data vs)) (data a)))
      else Raise (ValueError "shape mismatch: value array could not be broadcast to indexing result")
  | None => Raise out_of_bounds
  end.

(** [a[mask] = v] for a boolean mask, which must have the shape of [a]. *)
Definition setitem_mask {A} (a : ndarray A) (mask : ndarray bool) (v : A)
  : result (ndarray A) :=
  if shape_eqb (shape mask) (shape a)
  then Ok (array (shape a)
             (map (fun p : bool * A => if fst p then v else snd p)
                (combine (data mask) (data a))))
  else Raise (IndexError "boolean index did not match indexed array").

End np.

Import np.

(** ** emissivity.utils

    [fractional_vegetation_cover] and [cavity_effect] are imported from a
    module outside the modelled file.  The development is parametric in
    them; [UtilsSameShape] is the part of their contract it relies on: each
    returns a well-formed raster of the shape of its argument. *)

Class Utils : Type := {
  fractional_vegetation_cover : ndarray float -> ndarray float;
  cavity_effect : ndarray float -> ndarray float
}.

Class UtilsSameShape (U : Utils) : Prop := {
  fvc_shape : forall a, wf a ->
    shape (fractional_vegetation_cover a) = shape a /\
    wf (fractional_vegetation_cover a);
  cavity_shape : forall a, wf a ->
    shape (cavity_effect a) = shape a /\ wf (cavity_effect a)
}.

(** ** Methods as computations over the instance *)

Definition M (S A : Type) : Type := S -> result A * S.

Definition ret {S A} (a : A) : M S A := fun s => (Ok a, s).

Definition bind {S A B} (c : M S A) (k : A -> M S B) : M S B :=
  fun s =>
    match c s with
    | (Ok a, s') => k a s'
    | (Raise e, s') => (Raise e, s')
    end.

Definition raise {S A} (e : exception) : M S A := fun s => (Raise e, s).

Definition get {S} : M S S := fun s => (Ok s, s).

Definition put {S} (s : S) : M S unit := fun _ => (Ok tt, s).

(** A numpy operation that may raise, run inside a method. *)
Definition lift {S A} (r : result A) : M S A := fun s => (r, s).

(** [assert cond, arg]. *)
Definition assert_ {S} (cond : bool) (arg : exception) : M S unit :=
  if cond then ret tt else raise (AssertionError arg).

Declare Scope method_scope.
Delimit Scope method_scope with method.
Notation "x <- c ;; k" := (bind c (fun x => k))
  (at level 61, c at next level, right associativity) : method_scope.
Notation "c ;; k" := (bind c (fun _ => k))
  (at level 61, right associativity) : method_scope.

(** ** Instances of the emissivity classes *)

Inductive class : Type :=
| ClassEmissivityParent
| ClassComputeMonoWindowEmissivity
| ClassComputeEmissivityNBEM
| ClassComputeEmissivityGopinadh.

(** The attributes of an instance.  [emissivity_soil] and [emissivity_veg]
    are bound by the subclasses' constructors only. *)
Record instance : Type := {
  class_of : class;
  ndvi : ndarray float;
  red_band : option (ndarray float);
  emissivity : ndarray float;
  nan_mask : ndarray bool;
  emissivity_soil : option float;
  emissivity_veg : option float
}.

Definition set_emissivity (e : ndarray float) (self : instance) : instance :=
  {| class_of := class_of self; ndvi := ndvi self; red_band := red_band self;
     emissivity := e; nan_mask := nan_mask self;
     emissivity_soil := emissivity_soil self;
     emissivity_veg := emissivity_veg self |}.

Definition set_emissivity_soil (v : float) (self : instance) : instance :=
  {| class_of := class_of self; ndvi := ndvi self; red_band := red_band self;
     emissivity := emissivity self; nan_mask := nan_mask self;
     emissivity_soil := Some v;
     emissivity_veg := emissivity_veg self |}.

Definition set_emissivity_veg (v : float) (self : instance) : instance :=
  {| class_of := class_of self; ndvi := ndvi self; red_band := red_band self;
     emissivity := emissivity self; nan_mask := nan_mask self;
     emissivity_soil := emissivity_soil self;
     emissivity_veg := Some v |}.

(** Reading an attribute that may not be bound. *)
Definition attr {A} (field : instance -> option A) (name : string)
  : M instance A :=
  fun self =>
    match field self with
    | Some v => (Ok v, self)
    | None => (Raise (AttributeError name), self)
    end.

(** [self.emissivity[...] = ...]: an in-place update of the array the
    attribute [emissivity] refers to. *)
Definition update_emissivity
  (f : ndarray float -> result (ndarray float)) : M instance unit :=
  fun self =>
    match f (emissivity self) with
    | Ok e => (Ok tt, set_emissivity e self)
    | Raise x => (Raise x, self)
    end.

(** The dictionaries keyed by ['baresoil'], ['vegetation'] and ['mixed']. *)
Record landcover (A : Type) : Type := {
  baresoil : A;
  vegetation : A;
  mixed : A
}.

Arguments Build_landcover {A} _ _ _.
Arguments baresoil {A} _.
Arguments vegetation {A} _.
Arguments mixed {A} _.

(** [repr] of a shape tuple, as [str.format] prints it. *)
Definition repr_nat (n : nat) : string :=
  NilZero.string_of_uint (Nat.to_uint n).

Definition repr_shape (sh : list nat) : string :=
  match sh with
  | [] => "()"
  | [d] => "(" ++ repr_nat d ++ ",)"
  | d :: ds =>
      "(" ++ fold_left (fun s d' => s ++ ", " ++ repr_nat d') ds (repr_nat d)
          ++ ")"
  end%string.

Local Open Scope method_scope.

Module EmissivityParent.

Definition __init__ (c : class) (ndvi : ndarray float)
  (red_band : option (ndarray float)) : result instance :=
  if Nat.eqb (length (shape ndvi)) 2
  then Ok {| class_of := c;
             ndvi := ndvi;
             red_band := red_band;
             emissivity := zeros_like ndvi;
             nan_mask := isnan ndvi;
             emissivity_soil := None;
             emissivity_veg := None |}
  else Raise (AssertionError (ValueError
         ("Input must be single band image with two dimensions only. "
            ++ repr_shape (shape ndvi)))).

Definition _get_land_surface_mask
  : M instance (landcover (ndarray bool)) :=
  self <- get ;;
  mask_baresoil <- lift (map2 andb (map1 (fun x => F64.geb x (-1)) (ndvi self))
                                   (map1 (fun x => x <? 0.2) (ndvi self))) ;;
  mask_vegetation <- lift (map2 andb (map1 (fun x => F64.gtb x 0.5) (ndvi self))
                                     (map1 (fun x => x <=? 1) (ndvi self))) ;;
  mask_mixed <- lift (map2 andb (map1 (fun x => F64.geb x 0.2) (ndvi self))
                                (map1 (fun x => x <=? 0.5) (ndvi self))) ;;
  ret {| baresoil := mask_baresoil;
         vegetation := mask_vegetation;
         mixed := mask_mixed |}.

Definition _compute_emissivity : M instance unit :=
  raise (NotImplementedError "No emissivity computation logic implemented yet").

Definition _get_landcover_mask_indices : M instance (landcover (list index)) :=
  masks <- _get_land_surface_mask ;;
  ret {| baresoil := where_ (baresoil masks);
         vegetation := where_ (vegetation masks);
         mixed := where_ (mixed masks) |}.

Definition _compute_fvc {U : Utils} : M instance (ndarray float) :=
  self <- get ;;
  ret (fractional_vegetation_cover (ndvi self)).

Definition _compute_cavity_effect {U : Utils} : M instance (ndarray float) :=
  fractional_veg_cover <- _compute_fvc ;;
  ret (cavity_effect fractional_veg_cover).

End EmissivityParent.

Module ComputeMonoWindowEmissivity.

Definition __init__ (ndvi : ndarray float) (red_band : option (ndarray float))
  : result instance :=
  match EmissivityParent.__init__ ClassComputeMonoWindowEmissivity
          ndvi red_band with
  | Ok self => Ok (set_emissivity_veg 0.99 (set_emissivity_soil 0.97 self))
  | Raise e => Raise e
  end.

(** Returns [self.emissivity]: the caller obtains the array the attribute
    refers to, not a copy, so the result is read off the instance. *)
Definition _compute_emissivity : M instance unit :=
  landcover_mask_indices <- EmissivityParent._get_landcover_mask_indices ;;
  soil <- attr emissivity_soil "emissivity_soil" ;;
  update_emissivity (fun e =>
    setitem_scalar e (baresoil landcover_mask_indices) soil) ;;
  veg <- attr emissivity_veg "emissivity_veg" ;;
  update_emissivity (fun e =>
    setitem_scalar e (vegetation landcover_mask_indices) veg) ;;
  self <- get ;;
  ndvi_mixed <- lift (getitem (ndvi self) (mixed landcover_mask_indices)) ;;
  update_emissivity (fun e =>
    setitem_array e (mixed landcover_mask_indices)
      (map1 (fun v => v + 0.986)
         (map1 (fun v => 0.004 * v)
            (map1 F64.square
               (map1 (fun v => v / (0.5 - 0.2))
                  (map1 (fun v => v - 0.2) ndvi_mixed)))))) ;;
  update_emissivity (fun e => setitem_mask e (nan_mask self) nan).

End ComputeMonoWindowEmissivity.

Module ComputeEmissivityNBEM.

Definition __init__ (ndvi : ndarray float) (red_band : option (ndarray float))
  : result instance :=
  match EmissivityParent.__init__ ClassComputeEmissivityNBEM
          ndvi red_band with
  | Ok self => Ok (set_emissivity_veg 0.9863 (set_emissivity_soil 0.9668 self))
  | Raise e => Raise e
  end.

(** [self.red_band[...]]; [None] is not subscriptable. *)
Definition subscriptable (a : option (ndarray float))
  : M instance (ndarray float) :=
  match a with
  | Some r => ret r
  | None => raise (TypeError "'NoneType' object is not subscriptable")
  end.

Definition _compute_emissivity {U : Utils} : M instance unit :=
  self <- get ;;
  assert_ (match red_band self with Some _ => true | None => false end)
    (ValueError
       "Red band cannot be None for this emissivity computation method") ;;
  landcover_mask_indices <- EmissivityParent._get_landcover_mask_indices ;;
  fractional_veg_cover <- EmissivityParent._compute_fvc ;;
  cavity_effect_10 <- EmissivityParent._compute_cavity_effect ;;
  red <- subscriptable (red_band self) ;;
  red_baresoil <- lift (getitem red (baresoil landcover_mask_indices)) ;;
  update_emissivity (fun e =>
    setitem_array e (baresoil landcover_mask_indices)
      (map1 (fun v => 0.973 - v) (map1 (fun v => 0.047 * v) red_baresoil))) ;;
  veg <- attr emissivity_veg "emissivity_veg" ;;
  fvc_mixed <- lift (getitem fractional_veg_cover
                       (mixed landcover_mask_indices)) ;;
  soil <- attr emissivity_soil "emissivity_soil" ;;
  fvc_mixed' <- lift (getitem fractional_veg_cover
                        (mixed landcover_mask_indices)) ;;
  mixture <- lift (map2 add (map1 (fun v => veg * v) fvc_mixed)
                       (map1 (fun v => soil * v)
                          (map1 (fun v => 1 - v) fvc_mixed'))) ;;
  cavity_mixed <- lift (getitem cavity_effect_10
                          (mixed landcover_mask_indices)) ;;
  mixed_values <- lift (map2 add mixture cavity_mixed) ;;
  update_emissivity (fun e =>
    setitem_array e (mixed landcover_mask_indices) mixed_values) ;;
  veg' <- attr emissivity_veg "emissivity_veg" ;;
  cavity_vegetation <- lift (getitem cavity_effect_10
                               (vegetation landcover_mask_indices)) ;;
  update_emissivity (fun e =>
    setitem_array e (vegetation landcover_mask_indices)
      (map1 (fun v => veg' + v) cavity_vegetation)) ;;
  update_emissivity (fun e => setitem_mask e (nan_mask self) nan).

End ComputeEmissivityNBEM.

Module ComputeEmissivityGopinadh.

Definition __init__ (ndvi : ndarray float) (red_band : option (ndarray float))
  : result instance :=
  match EmissivityParent.__init__ ClassComputeEmissivityGopinadh
          ndvi red_band with
  | Ok self => Ok (set_emissivity_veg 0.9747 (set_emissivity_soil 0.9668 self))
  | Raise e => Raise e
  end.

(** Here [self.emissivity] is rebound to a freshly computed array before
    the NaN overlay is written into it. *)
Definition _compute_emissivity {U : Utils} : M instance unit :=
  fractional_veg_cover <- EmissivityParent._compute_fvc ;;
  soil <- attr emissivity_soil "emissivity_soil" ;;
  veg <- attr emissivity_veg "emissivity_veg" ;;
  blend <- lift (map2 add
                   (map1 (fun v => soil * v)
                      (map1 (fun v => 1 - v) fractional_veg_cover))
                   (map1 (fun v => veg * v) fractional_veg_cover)) ;;
  self <- get ;;
  put (set_emissivity blend self) ;;
  update_emissivity (fun e => setitem_mask e (nan_mask self) nan).

End ComputeEmissivityGopinadh.

(** ** Method resolution and [EmissivityParent.__call__] *)

(** [self._compute_emissivity()], resolved on the class of [self]. *)
Definition _compute_emissivity {U : Utils} : M instance unit :=
  self <- get ;;
  match class_of self with
  | ClassEmissivityParent => EmissivityParent._compute_emissivity
  | ClassComputeMonoWindowEmissivity =>
      ComputeMonoWindowEmissivity._compute_emissivity
  | ClassComputeEmissivityNBEM => ComputeEmissivityNBEM._compute_emissivity
  | ClassComputeEmissivityGopinadh =>
      ComputeEmissivityGopinadh._compute_emissivity
  end.

(** [EmissivityParent.__call__], inherited by the three models.  [emm] is
    the array [self.emissivity] itself, so [emm[self.nan_mask] = np.nan]
    writes into that array and [return emm] returns it. *)
Definition __call__ {U : Utils} : M instance (ndarray float) :=
  self <- get ;;
  match red_band self with
  | Some red =>
      assert_ (shape_eqb (shape (ndvi self)) (shape red))
        (ValueError
           "Input images (NDVI and Red band) must be of equal dimension")
  | None => ret tt
  end ;;
  _compute_emissivity ;;
  update_emissivity (fun emm => setitem_mask emm (nan_mask self) nan) ;;
  self' <- get ;;
  ret (emissivity self').

(** [c(ndvi, red_band)]: instantiating a class. *)
Definition new (c : class) (ndvi : ndarray float)
  (red_band : option (ndarray float)) : result instance :=
  match c with
  | ClassEmissivityParent =>
      EmissivityParent.__init__ ClassEmissivityParent ndvi red_band
  | ClassComputeMonoWindowEmissivity =>
      ComputeMonoWindowEmissivity.__init__ ndvi red_band
  | ClassComputeEmissivityNBEM => ComputeEmissivityNBEM.__init__ ndvi red_band
  | ClassComputeEmissivityGopinadh =>
      ComputeEmissivityGopinadh.__init__ ndvi red_band
  end.

(** [c(ndvi, red_band)()]: the value returned or the exception raised,
    and the instance as the call left it when one was constructed. *)
Definition invoke {U : Utils} (c : class) (ndvi : ndarray float)
  (red_band : option (ndarray float))
  : result (ndarray float) * option instance :=
  match new c ndvi red_band with
  | Ok self => let (r, self') := __call__ self in (r, Some self')
  | Raise e => (Raise e, None)
  end.

(** ** The dispatcher *)

Definition EMISSIVITY_METHODS : list string :=
  ["avdan"; "xiaolei"; "gopinadh"]%string.

Module Emissivity.

Record t : Type := { ndvi : ndarray float; red_band : option (ndarray float) }.

Definition __init__ (ndvi : ndarray float) (red_band : option (ndarray float))
  : t := {| ndvi := ndvi; red_band := red_band |}.

(** The message is a plain string literal: its braces are not a format
    field. *)
Definition get_method (method : string) : result class :=
  if String.eqb method "avdan" then Ok ClassComputeMonoWindowEmissivity
  else if String.eqb method "xiaolei" then Ok ClassComputeEmissivityNBEM
  else if String.eqb method "gopinadh" then Ok ClassComputeEmissivityGopinadh
  else Raise (NotImplementedError
    "Requested method not implemented. Choose among available methods: {EMMISIVITY_METHODS}").

Definition __call__ {U : Utils} (self : t) (method : string)
  : result (ndarray float) * option instance :=
  if existsb (String.eqb method) EMISSIVITY_METHODS
  then match get_method method with
       | Ok compute_method => invoke compute_method (ndvi self) (red_band self)
       | Raise e => (Raise e, None)
       end
  else (Raise (AssertionError (ValueError "Method not implemented")), None).

End Emissivity.

(** ** Vocabulary of the statements

    Nothing below is code of the repository: these are the per-pixel
    readings, layouts and sample inputs in which the properties are
    stated. *)

(** Membership of an offset in a list of offsets. *)
Definition mem (j : nat) (ks : list nat) : bool := existsb (Nat.eqb j) ks.

(** Two arrays laid out alike: one shape, buffers of one length. *)
Definition same_layout {A B} (a : ndarray A) (b : ndarray B) : Prop :=
  shape a = shape b /\ length (data a) = length (data b).

(** [pointwise out base F]: [out] is laid out like [base] and holds
    [F k x] wherever [base] holds [x] at offset [k]. *)
Definition pointwise {A} (out : ndarray A) (base : ndarray float)
  (F : nat -> float -> A) : Prop :=
  same_layout out base /\
  forall k x, pixel base k = Some x -> pixel out k = Some (F k x).

(** The classifier's three predicates on one NDVI value. *)
Definition is_baresoil (x : float) : bool := F64.geb x (-1) && (x <? 0.2).
Definition is_vegetation (x : float) : bool := F64.gtb x 0.5 && (x <=? 1).
Definition is_mixed (x : float) : bool := F64.geb x 0.2 && (x <=? 0.5).

(** The mono-window value of a mixed pixel. *)
Definition mono_mixed (x : float) : float :=
  0.004 * F64.square ((x - 0.2) / (0.5 - 0.2)) + 0.986.

(** What the mono-window model leaves at a pixel of NDVI [x]. *)
Definition mono_px (x : float) : float :=
  if is_nan x then nan
  else if is_mixed x then mono_mixed x
  else if is_vegetation x then 0.99
  else if is_baresoil x then 0.97
  else 0.

(** What the NBEM model leaves at a pixel of NDVI [x], red reflectance
    [r], fractional cover [f] and cavity effect [c]. *)
Definition nbem_px (x r f c : float) : float :=
  if is_nan x then nan
  else if is_vegetation x then 0.9863 + c
  else if is_mixed x then (0.9863 * f + 0.9668 * (1 - f)) + c
  else if is_baresoil x then 0.973 - 0.047 * r
  else 0.

(** The Gopinadh blend at fractional cover [f]. *)
Definition gopinadh_blend (f : float) : float :=
  0.9668 * (1 - f) + 0.9747 * f.

(** The instance a subclass constructor returns for a two-dimensional
    NDVI raster. *)
Definition fresh (c : class) (nd : ndarray float)
  (red : option (ndarray float)) (soil veg : float) : instance :=
  {| class_of := c; ndvi := nd; red_band := red;
     emissivity := zeros_like nd; nan_mask := isnan nd;
     emissivity_soil := Some soil; emissivity_veg := Some veg |}.

(** What every model asks of its arguments: a two-dimensional, well-formed
    NDVI raster and, when a red band is given, one laid out like it. *)
Definition valid_inputs (nd : ndarray float) (red : option (ndarray float))
  : Prop :=
  length (shape nd) = 2%nat /\ wf nd /\
  match red with Some r => same_layout r nd | None => True end.

(** The constants each model's constructor binds. *)
Definition soil_of (c : class) : float :=
  match c with
  | ClassComputeMonoWindowEmissivity => 0.97
  | _ => 0.9668
  end.

Definition veg_of (c : class) : float :=
  match c with
  | ClassComputeMonoWindowEmissivity => 0.99
  | ClassComputeEmissivityNBEM => 0.9863
  | _ => 0.9747
  end.

(** [c(ndvi, red_band)()] returns [out], which is the array the instance's
    attribute [emissivity] refers to when the call ends. *)
Definition returns {U : Utils} (c : class) (nd : ndarray float)
  (red : option (ndarray float)) (out : ndarray float) : Prop :=
  exists self',
    invoke c nd red = (Ok out, Some self') /\
    emissivity self' = out /\ ndvi self' = nd /\ shape out = shape nd.

(** NaN-mask fidelity of a class: an output pixel is NaN exactly when the
    NDVI pixel is. *)
Definition nan_mask_fidelity (U : Utils) (c : class) : Prop :=
  forall nd red out k x y,
    returns c nd red out ->
    pixel nd k = Some x -> pixel out k = Some y ->
    (is_nan y = true <-> is_nan x = true).

(** [name] occurs in [msg]. *)
Definition mentions (name msg : string) : bool :=
  match String.index 0 name msg with
  | Some _ => true
  | None => false
  end.

(** An implementation of [emissivity.utils] on which the theorems are
    exercised: FVC as the squared, rescaled NDVI and a cavity term linear
    in FVC.  It stands for no code of the repository. *)
Definition example_utils : Utils := {|
  fractional_vegetation_cover :=
    map1 (fun v => F64.square ((v - 0.2) / (0.5 - 0.2)));
  cavity_effect := map1 (fun f => 0.005 * (1 - f))
|}.

(** The scene of the specification's worked example. *)
Definition scene_ndvi : ndarray float :=
  array [2; 2]%nat [-0.5; 0.3; 0.7; nan].

Definition scene_red : ndarray float :=
  array [2; 2]%nat [0.2; 0.25; 0.1; 0.3].

(** A one-pixel scene: baresoil NDVI, NaN red reflectance. *)
Definition nan_red_ndvi : ndarray float := array [1; 1]%nat [-0.5].
Definition nan_red_band : ndarray float := array [1; 1]%nat [nan].

(** A 3x3 NDVI raster and a 3x4 red band. *)
Definition ndvi_3x3 : ndarray float := array [3; 3]%nat (repeat 0.3 9).
Definition red_3x4 : ndarray float := array [3; 4]%nat (repeat 0.1 12).

(** A row of NDVI values outside [-1, 1]. *)
Definition out_of_range_ndvi : ndarray float :=
  array [1; 4]%nat [-1.5; 2; infinity; neg_infinity].

Definition out_of_range_red : ndarray float :=
  array [1; 4]%nat [0.2; 0.25; 0.1; 0.3].

(** A one-dimensional array, which no class accepts as NDVI. *)
Definition ndvi_1d : ndarray float := array [4]%nat [-0.5; 0.3; 0.7; nan].

(** A second red band for [scene_ndvi]: it differs from [scene_red] at the
    mixed and vegetation pixels only. *)
Definition scene_red' : ndarray float :=
  array [2; 2]%nat [0.2; 0.9; 0.8; 0.3].

(** [s'] differs from [s] in the attribute [emissivity] at most. *)
Definition frame (s s' : instance) : Prop :=
  s' = set_emissivity (emissivity s') s.

Definition not_implemented (e : exception) : bool :=
  match e with
  | NotImplementedError _ => true
  | _ => false
  end.

(** Every run of [c] leaves all attributes but [emissivity] alone, and an
    exception it raises satisfies [P]. *)
Definition post {A} (P : exception -> Prop) (c : M instance A) : Prop :=
  forall s r s', c s = (r, s') ->
    frame s s' /\ forall e, r = Raise e -> P e.

(** A numpy operation raises nothing but what satisfies [P]. *)
Definition raises_only {A} (P : exception -> Prop) (r : result A) : Prop :=
  forall e, r = Raise e -> P e.

(** The exceptions a model's body can raise by itself: not
    [NotImplementedError]. *)
Definition model_exception (e : exception) : Prop :=
  not_implemented e = false.

(** [P] holds of every exception the primitives of a model's body raise:
    index, value, attribute and type errors and failed assertions. *)
Definition admits (P : exception -> Prop) : Prop :=
  (forall m, P (IndexError m)) /\ (forall m, P (ValueError m)) /\
  (forall m, P (AttributeError m)) /\ (forall m, P (TypeError m)) /\
  (forall e, P (AssertionError e)).

(** * Properties *)

(** ** Binary64 comparisons and NaN propagation *)

Module F64Facts.

Lemma SFcompare_refl f : f <> S754_nan -> SFcompare f f = Some Eq.
Proof.
  destruct f as [s| s | | s m e]; simpl; try congruence; intros _.
  - now destruct s.
  - destruct s; rewrite Z.compare_refl;
      change (Pos.compare_cont Eq m m) with (Pos.compare m m);
      now rewrite Pos.compare_refl.
Qed.

Lemma is_nan_spec x : is_nan x = true <-> Prim2SF x = S754_nan.
Proof.
  unfold is_nan. rewrite eqb_spec. unfold SFeqb. split.
  - intros H. destruct (Prim2SF x) eqn:E; trivial;
      rewrite SFcompare_refl in H by discriminate; discriminate.
  - intros ->. reflexivity.
Qed.

Lemma is_nan_eq x : is_nan x = true -> x = nan.
Proof.
  intros H. apply Prim2SF_inj. apply is_nan_spec in H. now rewrite H.
Qed.

Lemma is_nan_congr x y :
  (Prim2SF x = S754_nan <-> Prim2SF y = S754_nan) -> is_nan x = is_nan y.
Proof.
  rewrite <- !is_nan_spec. destruct (is_nan x), (is_nan y); intuition congruence.
Qed.

Lemma SFcompare_antisym a b :
  SFcompare b a = option_map CompOpp (SFcompare a b).
Proof.
  destruct a as [sa|sa| |sa ma ea], b as [sb|sb| |sb mb eb]; simpl;
    try reflexivity; try (destruct sa; reflexivity);
    try (destruct sb; reflexivity);
    try (destruct sa, sb; reflexivity).
  change (Pos.compare_cont Eq mb ma) with (Pos.compare mb ma).
  change (Pos.compare_cont Eq ma mb) with (Pos.compare ma mb).
  rewrite (Z.compare_antisym ea eb), (Pos.compare_antisym ma mb).
  destruct sa, sb; simpl; try reflexivity;
    destruct (ea ?= eb)%Z; simpl; try reflexivity;
    destruct (ma ?= mb)%positive; reflexivity.
Qed.

Ltac compare_cases :=
  repeat match goal with
    | |- context [Pos.compare_cont Eq ?a ?b] =>
        change (Pos.compare_cont Eq a b) with (Pos.compare a b)
    | H : context [Pos.compare_cont Eq ?a ?b] |- _ =>
        change (Pos.compare_cont Eq a b) with (Pos.compare a b) in H
    end;
  repeat match goal with
    | H : context [(?a ?= ?b)%Z] |- _ =>
        destruct (Z.compare_spec a b); try discriminate
    | H : context [(?a ?= ?b)%positive] |- _ =>
        destruct (Pos.compare_spec a b); simpl in H; try discriminate
    end;
  repeat match goal with
    | |- context [(?a ?= ?b)%Z] =>
        destruct (Z.compare_spec a b); try lia
    | |- context [(?a ?= ?b)%positive] =>
        destruct (Pos.compare_spec a b); simpl; try lia
    end;
  subst; try reflexivity; try lia.

Lemma SFcompare_lt_trans a b c :
  SFcompare a b = Some Lt -> SFcompare b c = Some Lt ->
  SFcompare a c = Some Lt.
Proof.
  destruct a as [sa|sa| |sa ma ea], b as [sb|sb| |sb mb eb],
    c as [sc|sc| |sc mc ec]; simpl;
    try discriminate; try (destruct sa; discriminate);
    try (destruct sb; discriminate); try (destruct sc; discriminate);
    try (destruct sa, sb; discriminate); try (destruct sb, sc; discriminate);
    try (destruct sa, sc; try discriminate; reflexivity);
    try (destruct sa, sb, sc; try discriminate; reflexivity).
  destruct sa, sb, sc; try discriminate; try reflexivity;
    intros H1 H2; compare_cases.
Qed.

Lemma SFcompare_eq_l a b c :
  SFcompare a b = Some Eq -> SFcompare a c = SFcompare b c.
Proof.
  destruct a as [sa|sa| |sa ma ea], b as [sb|sb| |sb mb eb]; simpl;
    try discriminate; try (destruct sa; discriminate);
    try (destruct sb; discriminate).
  - destruct c; reflexivity.
  - destruct sa, sb; try discriminate; reflexivity.
  - destruct sa, sb; try discriminate; intros H; compare_cases;
      destruct c as [sc|sc| |sc mc ec]; reflexivity.
Qed.

Lemma ltb_true x y :
  (x <? y) = true <-> SFcompare (Prim2SF x) (Prim2SF y) = Some Lt.
Proof.
  rewrite ltb_spec. unfold SFltb.
  destruct (SFcompare _ _) as [[]|]; split; congruence.
Qed.

Lemma leb_true x y :
  (x <=? y) = true <->
  SFcompare (Prim2SF x) (Prim2SF y) = Some Lt \/
  SFcompare (Prim2SF x) (Prim2SF y) = Some Eq.
Proof.
  rewrite leb_spec. unfold SFleb.
  destruct (SFcompare _ _) as [[]|]; intuition congruence.
Qed.

Lemma ltb_trans x y z : (x <? y) = true -> (y <? z) = true -> (x <? z) = true.
Proof. rewrite !ltb_true. apply SFcompare_lt_trans. Qed.

Lemma ltb_leb_trans x y z :
  (x <? y) = true -> (y <=? z) = true -> (x <? z) = true.
Proof.
  rewrite !ltb_true, leb_true. intros H [H'|H'].
  - eapply SFcompare_lt_trans; eassumption.
  - rewrite SFcompare_antisym in H |- *.
    rewrite <- (SFcompare_eq_l _ _ _ H'). exact H.
Qed.

Lemma leb_ltb_trans x y z :
  (x <=? y) = true -> (y <? z) = true -> (x <? z) = true.
Proof.
  rewrite !ltb_true, leb_true. intros [H|H] H'.
  - eapply SFcompare_lt_trans; eassumption.
  - now rewrite (SFcompare_eq_l _ _ _ H).
Qed.

Lemma ltb_leb_false x y : (x <? y) = true -> (y <=? x) = false.
Proof.
  rewrite ltb_true, leb_spec. unfold SFleb. intros H.
  now rewrite SFcompare_antisym, H.
Qed.

Lemma ltb_not_nan_l x y : (x <? y) = true -> is_nan x = false.
Proof.
  rewrite ltb_true. intros H. destruct (is_nan x) eqn:E; trivial.
  apply is_nan_spec in E. rewrite E in H. discriminate.
Qed.

Lemma ltb_not_nan_r x y : (x <? y) = true -> is_nan y = false.
Proof.
  rewrite ltb_true. intros H. destruct (is_nan y) eqn:E; trivial.
  apply is_nan_spec in E. rewrite E in H.
  destruct (Prim2SF x); discriminate.
Qed.

Lemma leb_not_nan_l x y : (x <=? y) = true -> is_nan x = false.
Proof.
  rewrite leb_true. intros H. destruct (is_nan x) eqn:E; trivial.
  apply is_nan_spec in E. rewrite E in H. destruct H; discriminate.
Qed.

Lemma leb_not_nan_r x y : (x <=? y) = true -> is_nan y = false.
Proof.
  rewrite leb_true. intros H. destruct (is_nan y) eqn:E; trivial.
  apply is_nan_spec in E. rewrite E in H.
  destruct (Prim2SF x), H; discriminate.
Qed.

(** *** Rounding never produces a NaN *)

Lemma iter_pos_inv {A} (P : A -> Prop) (f : A -> A) :
  (forall a, P a -> P (f a)) ->
  forall n a, P a -> P (iter_pos f n a).
Proof.
  intros Hf. induction n as [n IH|n IH|]; intros a Ha; simpl; auto.
Qed.

Lemma shr_1_nonneg mrs : (0 <= shr_m mrs)%Z -> (0 <= shr_m (shr_1 mrs))%Z.
Proof.
  destruct mrs as [m r s]. simpl.
  destruct m as [|[p|p|]|[p|p|]]; simpl; lia.
Qed.

Lemma shr_nonneg mrs e n :
  (0 <= shr_m mrs)%Z -> (0 <= shr_m (fst (shr mrs e n)))%Z.
Proof.
  intros H. destruct n; simpl; trivial.
  apply iter_pos_inv; trivial. apply shr_1_nonneg.
Qed.

Lemma shr_fexp_nonneg m e l :
  (0 <= m)%Z -> (0 <= shr_m (fst (shr_fexp prec emax m e l)))%Z.
Proof.
  intros H. unfold shr_fexp. apply shr_nonneg.
  destruct l as [|[]]; exact H.
Qed.

Lemma round_nearest_even_nonneg m l :
  (0 <= m)%Z -> (0 <= round_nearest_even m l)%Z.
Proof.
  intros H. destruct l as [|[]]; simpl; try lia.
  destruct (Z.even m); lia.
Qed.

Lemma binary_round_aux_not_nan s m e l :
  (0 <= m)%Z -> binary_round_aux prec emax s m e l <> S754_nan.
Proof.
  intros H. unfold binary_round_aux.
  pose proof (shr_fexp_nonneg m e l H) as H1.
  destruct (shr_fexp prec emax m e l) as [mrs' e']. simpl in H1.
  pose proof (shr_fexp_nonneg _ e' loc_Exact
                (round_nearest_even_nonneg _ (loc_of_shr_record mrs') H1))
    as H2.
  destruct (shr_fexp prec emax _ e' loc_Exact) as [mrs'' e'']. simpl in H2.
  destruct (shr_m mrs''); try lia; try discriminate.
  destruct (e'' <=? emax - prec)%Z; discriminate.
Qed.

Lemma binary_normalize_not_nan m e szero :
  binary_normalize prec emax m e szero <> S754_nan.
Proof.
  destruct m; simpl; try discriminate; unfold binary_round;
    destruct (shl_align _ _ _); apply binary_round_aux_not_nan; lia.
Qed.

Lemma SFadd_finite_r x c :
  F64.finite c -> (SFadd prec emax x c = S754_nan <-> x = S754_nan).
Proof.
  intros [[s ->]|(s & m & e & ->)]; destruct x as [sx|sx| |sx mx ex]; simpl;
    try (split; congruence); try (destruct sx, s; split; congruence).
  split; try congruence. intros H. now apply binary_normalize_not_nan in H.
Qed.

Lemma SFsub_finite_r x c :
  F64.finite c -> (SFsub prec emax x c = S754_nan <-> x = S754_nan).
Proof.
  intros [[s ->]|(s & m & e & ->)]; destruct x as [sx|sx| |sx mx ex]; simpl;
    try (split; congruence); try (destruct sx, s; split; congruence).
  split; try congruence. intros H. now apply binary_normalize_not_nan in H.
Qed.

Lemma SFsub_finite_l c y :
  F64.finite c -> (SFsub prec emax c y = S754_nan <-> y = S754_nan).
Proof.
  intros [[s ->]|(s & m & e & ->)]; destruct y as [sx|sx| |sx mx ex]; simpl;
    try (split; congruence); try (destruct sx, s; split; congruence).
  split; try congruence. intros H. now apply binary_normalize_not_nan in H.
Qed.

Lemma SFmul_finite_l y s m e :
  SFmul prec emax (S754_finite s m e) y = S754_nan <-> y = S754_nan.
Proof.
  destruct y as [sx|sx| |sx mx ex]; simpl; try (split; congruence).
  split; try congruence. intros H.
  apply binary_round_aux_not_nan in H; [easy|lia].
Qed.

Lemma SFmul_self y : SFmul prec emax y y = S754_nan <-> y = S754_nan.
Proof.
  destruct y as [sx|sx| |sx mx ex]; simpl; try (split; congruence).
  split; try congruence. intros H.
  apply binary_round_aux_not_nan in H; [easy|lia].
Qed.

Lemma SFdiv_core_nonneg m1 e1 m2 e2 :
  let '(q, _, _) := SFdiv_core_binary prec emax (Zpos m1) e1 (Zpos m2) e2 in
  (0 <= q)%Z.
Proof.
  unfold SFdiv_core_binary.
  set (s := (e1 - e2 - _)%Z).
  set (m' := match s with Zpos _ => _ | Z0 => _ | Zneg _ => _ end).
  assert (Hm : (0 <= m')%Z).
  { subst m'. destruct s; try lia. apply Z.shiftl_nonneg. lia. }
  pose proof (Z_div_mod m' (Zpos m2) eq_refl) as H.
  destruct (Z.div_eucl m' (Zpos m2)) as [q r]. nia.
Qed.

Lemma SFdiv_finite_r x s m e :
  SFdiv prec emax x (S754_finite s m e) = S754_nan <-> x = S754_nan.
Proof.
  destruct x as [sx|sx| |sx mx ex]; simpl; try (split; congruence).
  pose proof (SFdiv_core_nonneg mx ex m e) as H.
  destruct (SFdiv_core_binary _ _ _ _ _ _) as [[q e'] l].
  split; try congruence. intros H'.
  now apply binary_round_aux_not_nan in H'.
Qed.

(** *** The same facts on primitive floats *)

Lemma is_nan_add_r x c :
  F64.finite (Prim2SF c) -> is_nan (x + c) = is_nan x.
Proof.
  intros H. apply is_nan_congr. rewrite add_spec. now apply SFadd_finite_r.
Qed.

Lemma is_nan_sub_r x c :
  F64.finite (Prim2SF c) -> is_nan (x - c) = is_nan x.
Proof.
  intros H. apply is_nan_congr. rewrite sub_spec. now apply SFsub_finite_r.
Qed.

Lemma is_nan_sub_l c y :
  F64.finite (Prim2SF c) -> is_nan (c - y) = is_nan y.
Proof.
  intros H. apply is_nan_congr. rewrite sub_spec. now apply SFsub_finite_l.
Qed.

Lemma is_nan_mul_l c y s m e :
  Prim2SF c = S754_finite s m e -> is_nan (c * y) = is_nan y.
Proof.
  intros H. apply is_nan_congr. rewrite mul_spec, H. apply SFmul_finite_l.
Qed.

Lemma is_nan_div_r x c s m e :
  Prim2SF c = S754_finite s m e -> is_nan (x / c) = is_nan x.
Proof.
  intros H. apply is_nan_congr. rewrite div_spec, H. apply SFdiv_finite_r.
Qed.

Lemma is_nan_square x : is_nan (F64.square x) = is_nan x.
Proof.
  apply is_nan_congr. unfold F64.square. rewrite mul_spec. apply SFmul_self.
Qed.

End F64Facts.

(** ** Lists and arrays *)

Section ListFacts.

Context {A : Type}.

Lemma list_set_length (l : list A) k v : length (list_set l k v) = length l.
Proof.
  revert k. induction l as [|x l IH]; intros [|k]; simpl; auto.
Qed.

Lemma nth_error_list_set (l : list A) k v j :
  nth_error (list_set l k v) j =
  if Nat.eqb j k then option_map (fun _ => v) (nth_error l j)
  else nth_error l j.
Proof.
  revert k j. induction l as [|x l IH]; intros [|k] [|j]; simpl; auto.
  now destruct (Nat.eqb j k).
Qed.

Lemma scatter_scalar_length ks (v : A) : forall d,
  length (fold_left (fun d k => list_set d k v) ks d) = length d.
Proof.
  induction ks as [|k ks IH]; intros d; simpl; trivial.
  now rewrite IH, list_set_length.
Qed.

Lemma scatter_scalar_nth ks (v : A) j : forall d,
  nth_error (fold_left (fun d k => list_set d k v) ks d) j =
  if mem j ks then option_map (fun _ => v) (nth_error d j)
  else nth_error d j.
Proof.
  induction ks as [|k ks IH]; intros d; simpl; trivial.
  rewrite IH, nth_error_list_set.
  destruct (Nat.eqb j k); simpl; destruct (mem j ks), (nth_error d j);
    reflexivity.
Qed.

Lemma scatter_array_length ks (vs : list A) : forall d,
  length (fold_left (fun d (kv : nat * A) => list_set d (fst kv) (snd kv))
            (combine ks vs) d) = length d.
Proof.
  revert vs. induction ks as [|k ks IH]; intros [|v vs] d; simpl; trivial.
  now rewrite IH, list_set_length.
Qed.

Lemma scatter_array_nth ks (h : nat -> A) j : forall d,
  nth_error (fold_left (fun d (kv : nat * A) => list_set d (fst kv) (snd kv))
               (combine ks (map h ks)) d) j =
  if mem j ks then option_map (fun _ => h j) (nth_error d j)
  else nth_error d j.
Proof.
  induction ks as [|k ks IH]; intros d; simpl; trivial.
  rewrite IH, nth_error_list_set.
  destruct (Nat.eqb_spec j k) as [->|]; simpl;
    destruct (mem _ ks), (nth_error d _); reflexivity.
Qed.

Lemma overlay_nth (m : list bool) (d : list A) v j :
  nth_error (map (fun p : bool * A => if fst p then v else snd p)
               (combine m d)) j =
  match nth_error m j, nth_error d j with
  | Some b, Some y => Some (if b then v else y)
  | _, _ => None
  end.
Proof.
  revert d j. induction m as [|b m IH]; intros [|y d] [|j]; simpl; auto.
  now destruct (nth_error m j).
Qed.

Lemma mapM_pointwise {B} (f : B -> option A) (g : B -> A) l :
  (forall b, In b l -> f b = Some (g b)) -> mapM f l = Some (map g l).
Proof.
  induction l as [|b l IH]; intros H; simpl; trivial.
  rewrite (H b) by (simpl; auto).
  rewrite IH by (intros; apply H; simpl; auto). reflexivity.
Qed.

Lemma mapM_map {B C} (f : B -> option A) (g : C -> B) l :
  mapM f (map g l) = mapM (fun c => f (g c)) l.
Proof.
  induction l as [|c l IH]; simpl; trivial. now rewrite IH.
Qed.

End ListFacts.

Lemma combine_map_same {A B C} (f : A -> B) (g : A -> C) l :
  combine (map f l) (map g l) = map (fun a => (f a, g a)) l.
Proof.
  induction l as [|a l IH]; simpl; trivial. now rewrite IH.
Qed.

Lemma nonzero_from_bounds l : forall k j,
  In j (nonzero_from k l) -> (k <= j < k + length l)%nat.
Proof.
  induction l as [|b l IH]; intros k j; simpl; [easy|].
  destruct b; simpl; intros H.
  - destruct H as [->|H]; [lia|]. apply IH in H. lia.
  - apply IH in H. lia.
Qed.

Lemma In_nonzero_from l : forall k j,
  In j (nonzero_from k l) <->
  (k <= j)%nat /\ nth_error l (j - k) = Some true.
Proof.
  induction l as [|b l IH]; intros k j; simpl.
  - split; [easy|]. intros [_ H]. destruct (j - k)%nat; discriminate.
  - assert (Hin : In j (nonzero_from k (b :: l)) <->
                  (j = k /\ b = true) \/ In j (nonzero_from (S k) l)).
    { simpl. destruct b; simpl; intuition congruence. }
    simpl in Hin. rewrite Hin, IH. clear Hin.
    destruct (Nat.eq_dec j k) as [->|Hne].
    + rewrite Nat.sub_diag. simpl. split.
      * intros [[_ ->]|[H _]]; [auto|lia].
      * intros [_ H]. injection H as ->. auto.
    + split.
      * intros [[H _]|[H1 H2]]; [easy|]. split; [lia|].
        replace (j - k)%nat with (S (j - S k)) by lia. exact H2.
      * intros [H1 H2]. right. split; [lia|].
        replace (j - k)%nat with (S (j - S k)) in H2 by lia. exact H2.
Qed.

Lemma mem_nonzero l j :
  mem j (nonzero_from 0 l) =
  match nth_error l j with Some true => true | _ => false end.
Proof.
  unfold mem.
  destruct (existsb (Nat.eqb j) (nonzero_from 0 l)) eqn:E.
  - apply existsb_exists in E. destruct E as (i & Hi & E).
    apply Nat.eqb_eq in E. subst i. apply In_nonzero_from in Hi.
    rewrite Nat.sub_0_r in Hi. now rewrite (proj2 Hi).
  - destruct (nth_error l j) as [[|]|] eqn:N; trivial.
    rewrite <- E. apply (proj2 (existsb_exists _ _)). exists j.
    split; [|apply Nat.eqb_refl].
    apply In_nonzero_from. rewrite Nat.sub_0_r. split; [lia|exact N].
Qed.

Lemma shape_eqb_refl s : shape_eqb s s = true.
Proof.
  induction s as [|d s IH]; simpl; trivial. now rewrite Nat.eqb_refl.
Qed.

Lemma shape_eqb_eq s1 s2 : shape_eqb s1 s2 = true <-> s1 = s2.
Proof.
  split; [|intros ->; apply shape_eqb_refl].
  revert s2. induction s1 as [|d1 s1 IH]; intros [|d2 s2]; simpl;
    try discriminate; trivial.
  rewrite andb_true_iff, Nat.eqb_eq. intros [-> H]. f_equal. now apply IH.
Qed.

Lemma shape_eqb_neq s1 s2 : s1 <> s2 -> shape_eqb s1 s2 = false.
Proof.
  intros H. destruct (shape_eqb s1 s2) eqn:E; trivial.
  now apply shape_eqb_eq in E.
Qed.

Lemma ravel_unravel sh : forall k,
  (k < size_of sh)%nat -> ravel sh (unravel sh k) = Some k.
Proof.
  induction sh as [|d sh IH]; intros k Hk; simpl in *.
  - f_equal. lia.
  - assert (Hs : size_of sh <> 0%nat) by (intros E; rewrite E in Hk; lia).
    assert (Hq : (k / size_of sh < d)%nat).
    { apply Nat.Div0.div_lt_upper_bound. lia. }
    apply Nat.ltb_lt in Hq. rewrite Hq.
    rewrite IH by (apply Nat.mod_upper_bound; exact Hs).
    simpl. f_equal.
    rewrite (Nat.div_mod_eq k (size_of sh)) at 3. lia.
Qed.

Lemma same_layout_map1 {A B} (f : A -> B) a : same_layout (map1 f a) a.
Proof. split; simpl; [reflexivity|apply length_map]. Qed.

Lemma same_layout_trans {A B C} (a : ndarray A) (b : ndarray B)
  (c : ndarray C) : same_layout a b -> same_layout b c -> same_layout a c.
Proof. intros [H1 H2] [H3 H4]. split; congruence. Qed.

Lemma same_layout_sym {A B} (a : ndarray A) (b : ndarray B) :
  same_layout a b -> same_layout b a.
Proof. intros [H1 H2]. split; congruence. Qed.

Lemma same_layout_wf {A B} (a : ndarray A) (b : ndarray B) :
  same_layout a b -> wf b -> wf a.
Proof. unfold wf. intros [H1 H2] H. congruence. Qed.

Lemma zeros_like_layout a : wf a -> same_layout (zeros_like a) a.
Proof.
  unfold wf. intros H. split; simpl; trivial. now rewrite repeat_length.
Qed.

Lemma map2_same {A B C} (f : A -> B -> C) a b :
  shape a = shape b ->
  map2 f a b =
  Ok (array (shape a)
        (map (fun p : A * B => f (fst p) (snd p)) (combine (data a) (data b)))).
Proof.
  intros H. unfold map2. now rewrite H, shape_eqb_refl.
Qed.

Lemma map2_map1 {A B C D} (f : B -> C -> D) (g : A -> B) (h : A -> C) a :
  map2 f (map1 g a) (map1 h a) = Ok (map1 (fun x => f (g x) (h x)) a).
Proof.
  rewrite map2_same by reflexivity. unfold map1. simpl.
  now rewrite combine_map_same, map_map.
Qed.

Lemma map1_map1 {A B C} (f : B -> C) (g : A -> B) a :
  map1 f (map1 g a) = map1 (fun x => f (g x)) a.
Proof. unfold map1. simpl. now rewrite map_map. Qed.

Lemma map1_gathered {A B C} (f : B -> C) (g : A -> B) sh (ks : list A) :
  map1 f (array sh (map g ks)) = array sh (map (fun k => f (g k)) ks).
Proof. unfold map1. simpl. now rewrite map_map. Qed.

Lemma map2_gathered {A B C D} (f : B -> C -> D) (g : A -> B) (h : A -> C)
  sh (ks : list A) :
  map2 f (array sh (map g ks)) (array sh (map h ks)) =
  Ok (array sh (map (fun k => f (g k) (h k)) ks)).
Proof.
  rewrite map2_same by reflexivity. simpl.
  now rewrite combine_map_same, map_map.
Qed.

Lemma offsets_where {A} (a : ndarray A) (m : ndarray bool) :
  wf a -> same_layout m a ->
  offsets a (where_ m) = Some (nonzero_from 0 (data m)).
Proof.
  intros Hwf [Hs Hl]. unfold offsets, where_.
  rewrite mapM_map, (mapM_pointwise _ (fun k => k)); [now rewrite map_id|].
  intros k Hk. apply nonzero_from_bounds in Hk. simpl in Hk.
  rewrite Hs, ravel_unravel by (rewrite <- Hwf; lia).
  assert (E : (k <? length (data a))%nat = true) by (apply Nat.ltb_lt; lia).
  now rewrite E.
Qed.

Lemma where_length m : length (where_ m) = length (nonzero_from 0 (data m)).
Proof. unfold where_. apply length_map. Qed.

(** A gather at the true entries of a mask reads the buffer at their
    offsets. *)
Lemma getitem_where {A} (dflt : A) (a : ndarray A) (m : ndarray bool) :
  wf a -> same_layout m a ->
  getitem a (where_ m) =
  Ok (array [length (where_ m)]
        (map (fun k => nth k (data a) dflt) (nonzero_from 0 (data m)))).
Proof.
  intros Hwf Hm. unfold getitem. rewrite offsets_where by assumption.
  rewrite (mapM_pointwise _ (fun k => nth k (data a) dflt)); trivial.
  intros k Hk. apply nonzero_from_bounds in Hk. destruct Hm as [_ Hl].
  apply nth_error_nth'. lia.
Qed.

Lemma setitem_scalar_where {A} (a : ndarray A) (m : ndarray bool) v :
  wf a -> same_layout m a ->
  setitem_scalar a (where_ m) v =
  Ok (array (shape a)
        (fold_left (fun d k => list_set d k v)
           (nonzero_from 0 (data m)) (data a))).
Proof.
  intros Hwf Hm. unfold setitem_scalar. now rewrite offsets_where.
Qed.

Lemma setitem_array_where {A} (a : ndarray A) (m : ndarray bool) vs :
  wf a -> same_layout m a -> shape vs = [length (where_ m)] ->
  setitem_array a (where_ m) vs =
  Ok (array (shape a)
        (fold_left (fun d (kv : nat * A) => list_set d (fst kv) (snd kv))
           (combine (nonzero_from 0 (data m)) (data vs)) (data a))).
Proof.
  intros Hwf Hm Hs. unfold setitem_array.
  now rewrite offsets_where, Hs, shape_eqb_refl.
Qed.

Lemma setitem_mask_same {A} (a : ndarray A) (m : ndarray bool) v :
  shape m = shape a ->
  setitem_mask a m v =
  Ok (array (shape a)
        (map (fun p : bool * A => if fst p then v else snd p)
           (combine (data m) (data a)))).
Proof.
  intros H. unfold setitem_mask. now rewrite H, shape_eqb_refl.
Qed.

(** ** Pixelwise reading of an array against the NDVI raster *)

Lemma pointwise_map1 {A} (p : float -> A) nd :
  pointwise (map1 p nd) nd (fun _ x => p x).
Proof.
  split; [apply same_layout_map1|].
  intros k x H. unfold pixel, map1 in *. simpl.
  now rewrite nth_error_map, H.
Qed.

Lemma pointwise_zeros nd : wf nd -> pointwise (zeros_like nd) nd (fun _ _ => 0).
Proof.
  intros Hwf. split; [now apply zeros_like_layout|].
  intros k x H. unfold pixel in *. simpl.
  apply nth_error_repeat. rewrite <- Hwf.
  apply nth_error_Some. congruence.
Qed.

Lemma pointwise_ext {A} (out : ndarray A) nd F G :
  (forall k x, pixel nd k = Some x -> F k x = G k x) ->
  pointwise out nd F -> pointwise out nd G.
Proof.
  intros E [L H]. split; trivial. intros k x Hx.
  rewrite (H k x Hx). f_equal. now apply E.
Qed.

Lemma mem_where_map1 (p : float -> bool) nd k x :
  pixel nd k = Some x ->
  mem k (nonzero_from 0 (data (map1 p nd))) = p x.
Proof.
  intros H. rewrite mem_nonzero. unfold pixel in H. simpl.
  rewrite nth_error_map, H. simpl. now destruct (p x).
Qed.

Lemma setitem_scalar_pointwise (p : float -> bool) nd (e : ndarray float) F v :
  wf nd -> pointwise e nd F ->
  exists e',
    setitem_scalar e (where_ (map1 p nd)) v = Ok e' /\
    pointwise e' nd (fun k x => if p x then v else F k x).
Proof.
  intros Hwf [L H]. eexists. split.
  - apply setitem_scalar_where.
    + eapply same_layout_wf; eassumption.
    + eapply same_layout_trans; [apply same_layout_map1|].
      now apply same_layout_sym.
  - split.
    + destruct L as [L1 L2]. split; simpl; trivial.
      now rewrite scatter_scalar_length.
    + intros k x Hx. unfold pixel. cbn [data]. rewrite scatter_scalar_nth.
      rewrite (mem_where_map1 p nd k x Hx).
      specialize (H k x Hx). unfold pixel in H. rewrite H.
      now destruct (p x).
Qed.

Lemma setitem_array_pointwise (p : float -> bool) nd (e : ndarray float) F
  (h : nat -> float) :
  wf nd -> pointwise e nd F ->
  exists e',
    setitem_array e (where_ (map1 p nd))
      (array [length (where_ (map1 p nd))]
         (map h (nonzero_from 0 (data (map1 p nd))))) = Ok e' /\
    pointwise e' nd (fun k x => if p x then h k else F k x).
Proof.
  intros Hwf [L H]. eexists. split.
  - apply setitem_array_where; trivial.
    + eapply same_layout_wf; eassumption.
    + eapply same_layout_trans; [apply same_layout_map1|].
      now apply same_layout_sym.
  - split.
    + destruct L as [L1 L2]. split; simpl; trivial.
      now rewrite scatter_array_length.
    + intros k x Hx. unfold pixel.
      cbn [data]. rewrite scatter_array_nth.
      rewrite (mem_where_map1 p nd k x Hx).
      specialize (H k x Hx). unfold pixel in H. rewrite H.
      now destruct (p x).
Qed.

Lemma setitem_mask_pointwise nd (e : ndarray float) F :
  pointwise e nd F ->
  exists e',
    setitem_mask e (isnan nd) nan = Ok e' /\
    pointwise e' nd (fun k x => if is_nan x then nan else F k x).
Proof.
  intros [[L1 L2] H]. eexists. split.
  - apply setitem_mask_same. simpl. congruence.
  - split.
    + split; simpl; trivial.
      rewrite length_map, length_combine, length_map, L2. apply Nat.min_id.
    + intros k x Hx. unfold pixel. simpl. rewrite overlay_nth.
      specialize (H k x Hx). unfold pixel in *.
      now rewrite nth_error_map, Hx, H.
Qed.

(** The values a gather at a class's pixels collects from a raster laid
    out like the NDVI raster. *)
Lemma getitem_where_map1 (p : float -> bool) nd src :
  wf nd -> same_layout src nd ->
  getitem src (where_ (map1 p nd)) =
  Ok (array [length (where_ (map1 p nd))]
        (map (fun k => nth k (data src) 0)
           (nonzero_from 0 (data (map1 p nd))))).
Proof.
  intros Hwf L. apply getitem_where.
  - eapply same_layout_wf; eassumption.
  - eapply same_layout_trans; [apply same_layout_map1|].
    now apply same_layout_sym.
Qed.

(** ** Running the methods *)

Lemma bind_run {S A B} (c : M S A) (k : A -> M S B) s a s' :
  c s = (Ok a, s') -> bind c k s = k a s'.
Proof. intros H. unfold bind. now rewrite H. Qed.

Lemma run_get_land_surface_mask self :
  EmissivityParent._get_land_surface_mask self =
  (Ok {| baresoil := map1 is_baresoil (ndvi self);
         vegetation := map1 is_vegetation (ndvi self);
         mixed := map1 is_mixed (ndvi self) |}, self).
Proof.
  unfold EmissivityParent._get_land_surface_mask.
  cbv [bind get lift ret]. now rewrite !map2_map1.
Qed.

Lemma run_get_landcover_mask_indices self :
  EmissivityParent._get_landcover_mask_indices self =
  (Ok {| baresoil := where_ (map1 is_baresoil (ndvi self));
         vegetation := where_ (map1 is_vegetation (ndvi self));
         mixed := where_ (map1 is_mixed (ndvi self)) |}, self).
Proof.
  unfold EmissivityParent._get_landcover_mask_indices.
  now rewrite (bind_run _ _ _ _ _ (run_get_land_surface_mask self)).
Qed.

Lemma run_update_emissivity f self e :
  f (emissivity self) = Ok e ->
  update_emissivity f self = (Ok tt, set_emissivity e self).
Proof. intros H. unfold update_emissivity. now rewrite H. Qed.

Lemma run_attr {A} (field : instance -> option A) name self v :
  field self = Some v -> attr field name self = (Ok v, self).
Proof. intros H. unfold attr. now rewrite H. Qed.

Ltac norm_self :=
  cbn [ndvi nan_mask emissivity emissivity_soil emissivity_veg red_band
       class_of set_emissivity set_emissivity_soil set_emissivity_veg fresh
       baresoil vegetation mixed].

(** One statement of a method body, run on the current instance. *)
Ltac step_attr :=
  match goal with
  | |- context [bind (attr ?f ?n) ?k ?s] =>
      rewrite (bind_run (attr f n) k s _ s (run_attr f n s _ eq_refl))
  end; norm_self.

Ltac step_get :=
  match goal with
  | |- context [bind get ?k ?s] => rewrite (bind_run get k s s s eq_refl)
  end; norm_self.

Ltac step_update E :=
  match goal with
  | |- context [bind (update_emissivity ?f) ?k ?s] =>
      rewrite (bind_run (update_emissivity f) k s tt _
                 (run_update_emissivity f s _ E))
  | |- context [update_emissivity ?f ?s] =>
      rewrite (run_update_emissivity f s _ E)
  end; norm_self.

Ltac step_ok :=
  match goal with
  | |- context [bind (lift (Ok ?a)) ?k ?s] =>
      rewrite (bind_run (lift (Ok a)) k s a s eq_refl)
  end; norm_self.

Ltac step_lift E :=
  rewrite E;
  match goal with
  | |- context [bind (lift (Ok ?a)) ?k ?s] =>
      rewrite (bind_run (lift (Ok a)) k s a s eq_refl)
  end; norm_self.

Lemma mono_compute nd red :
  wf nd ->
  exists e,
    ComputeMonoWindowEmissivity._compute_emissivity
      (fresh ClassComputeMonoWindowEmissivity nd red 0.97 0.99) =
    (Ok tt, set_emissivity e
              (fresh ClassComputeMonoWindowEmissivity nd red 0.97 0.99)) /\
    pointwise e nd (fun _ x => mono_px x).
Proof.
  intros Hwf.
  destruct (setitem_scalar_pointwise is_baresoil nd _ _ 0.97 Hwf
              (pointwise_zeros nd Hwf)) as (e1 & E1 & P1).
  destruct (setitem_scalar_pointwise is_vegetation nd e1 _ 0.99 Hwf P1)
    as (e2 & E2 & P2).
  destruct (setitem_array_pointwise is_mixed nd e2 _
              (fun k => mono_mixed (nth k (data nd) 0)) Hwf P2)
    as (e3 & E3 & P3).
  destruct (setitem_mask_pointwise nd e3 _ P3) as (e4 & E4 & P4).
  exists e4. split.
  - unfold ComputeMonoWindowEmissivity._compute_emissivity.
    rewrite (bind_run _ _ _ _ _ (run_get_landcover_mask_indices _)).
    norm_self.
    step_attr. step_update E1. step_attr. step_update E2. step_get.
    step_lift (getitem_where_map1 is_mixed nd nd Hwf (conj eq_refl eq_refl)).
    rewrite !map1_map1, map1_gathered.
    step_update E3. step_update E4. reflexivity.
  - eapply pointwise_ext; [|exact P4].
    intros k x Hx. cbv beta. unfold mono_px.
    unfold pixel in Hx. rewrite (nth_error_nth _ _ 0 Hx). reflexivity.
Qed.

Lemma pointwise_of_layout (src : ndarray float) nd (g : float -> float) :
  same_layout src nd ->
  pointwise (map1 g src) nd (fun k _ => g (nth k (data src) 0)).
Proof.
  intros L. split.
  - eapply same_layout_trans; [apply same_layout_map1|exact L].
  - intros k x Hx. unfold pixel in *. simpl. rewrite nth_error_map.
    assert (Hk : (k < length (data src))%nat).
    { destruct L as [_ ->]. apply nth_error_Some. congruence. }
    now rewrite (nth_error_nth' _ 0 Hk).
Qed.

Section WithUtils.

Context {U : Utils}.

Lemma run_compute_fvc self :
  EmissivityParent._compute_fvc self =
  (Ok (fractional_vegetation_cover (ndvi self)), self).
Proof. reflexivity. Qed.

Lemma run_compute_cavity_effect self :
  EmissivityParent._compute_cavity_effect self =
  (Ok (cavity_effect (fractional_vegetation_cover (ndvi self))), self).
Proof. reflexivity. Qed.

Lemma utils_layout {H : UtilsSameShape U} nd :
  wf nd ->
  same_layout (fractional_vegetation_cover nd) nd /\
  same_layout (cavity_effect (fractional_vegetation_cover nd)) nd.
Proof.
  intros Hwf.
  destruct (fvc_shape nd Hwf) as [S1 W1].
  destruct (cavity_shape _ W1) as [S2 W2].
  unfold wf, same_layout in *. repeat split; congruence.
Qed.

Lemma nbem_compute {H : UtilsSameShape U} nd red :
  wf nd -> same_layout red nd ->
  exists e,
    ComputeEmissivityNBEM._compute_emissivity
      (fresh ClassComputeEmissivityNBEM nd (Some red) 0.9668 0.9863) =
    (Ok tt, set_emissivity e
              (fresh ClassComputeEmissivityNBEM nd (Some red) 0.9668 0.9863))
    /\
    pointwise e nd (fun k x =>
      nbem_px x (nth k (data red) 0)
        (nth k (data (fractional_vegetation_cover nd)) 0)
        (nth k (data (cavity_effect (fractional_vegetation_cover nd))) 0)).
Proof.
  intros Hwf Lr.
  destruct (utils_layout nd Hwf) as [Lf Lc].
  set (fvc := fractional_vegetation_cover nd) in *.
  set (cav := cavity_effect fvc) in *.
  destruct (setitem_array_pointwise is_baresoil nd _ _
              (fun k => 0.973 - 0.047 * nth k (data red) 0) Hwf
              (pointwise_zeros nd Hwf)) as (e1 & E1 & P1).
  destruct (setitem_array_pointwise is_mixed nd e1 _
              (fun k => (0.9863 * nth k (data fvc) 0
                         + 0.9668 * (1 - nth k (data fvc) 0))
                        + nth k (data cav) 0) Hwf P1) as (e2 & E2 & P2).
  destruct (setitem_array_pointwise is_vegetation nd e2 _
              (fun k => 0.9863 + nth k (data cav) 0) Hwf P2)
    as (e3 & E3 & P3).
  destruct (setitem_mask_pointwise nd e3 _ P3) as (e4 & E4 & P4).
  exists e4. split.
  - unfold ComputeEmissivityNBEM._compute_emissivity.
    step_get. unfold assert_.
    rewrite (bind_run (ret tt) _ _ tt _ eq_refl).
    rewrite (bind_run _ _ _ _ _ (run_get_landcover_mask_indices _)).
    rewrite (bind_run _ _ _ _ _ (run_compute_fvc _)).
    rewrite (bind_run _ _ _ _ _ (run_compute_cavity_effect _)).
    norm_self. fold fvc. fold cav.
    unfold ComputeEmissivityNBEM.subscriptable.
    rewrite (bind_run (ret red) _ _ red _ eq_refl).
    step_lift (getitem_where_map1 is_baresoil nd red Hwf Lr).
    rewrite !map1_gathered.
    step_update E1. step_attr.
    step_lift (getitem_where_map1 is_mixed nd fvc Hwf Lf).
    step_attr. step_ok.
    rewrite !map1_gathered, map2_gathered. step_ok.
    step_lift (getitem_where_map1 is_mixed nd cav Hwf Lc).
    rewrite map2_gathered. step_ok.
    step_update E2. step_attr.
    step_lift (getitem_where_map1 is_vegetation nd cav Hwf Lc).
    rewrite map1_gathered.
    step_update E3. step_update E4. reflexivity.
  - eapply pointwise_ext; [|exact P4].
    intros k x Hx. cbv beta. unfold nbem_px. reflexivity.
Qed.

Lemma gopinadh_compute {H : UtilsSameShape U} nd red :
  wf nd ->
  exists e,
    ComputeEmissivityGopinadh._compute_emissivity
      (fresh ClassComputeEmissivityGopinadh nd red 0.9668 0.9747) =
    (Ok tt, set_emissivity e
              (fresh ClassComputeEmissivityGopinadh nd red 0.9668 0.9747))
    /\
    pointwise e nd (fun k x =>
      if is_nan x then nan
      else gopinadh_blend (nth k (data (fractional_vegetation_cover nd)) 0)).
Proof.
  intros Hwf.
  destruct (utils_layout nd Hwf) as [Lf _].
  set (fvc := fractional_vegetation_cover nd) in *.
  destruct (setitem_mask_pointwise nd _ _
              (pointwise_of_layout fvc nd gopinadh_blend Lf))
    as (e & E & P).
  exists e. split; [|exact P].
  unfold ComputeEmissivityGopinadh._compute_emissivity.
  rewrite (bind_run _ _ _ _ _ (run_compute_fvc _)).
  norm_self. fold fvc. step_attr. step_attr.
  rewrite !map1_map1, map2_map1. step_ok.
  step_get.
  match goal with
  | |- context [bind (put ?x) ?k ?s] =>
      rewrite (bind_run (put x) k s tt x eq_refl)
  end.
  norm_self. step_update E. reflexivity.
Qed.

End WithUtils.

(** ** The classifier on one pixel *)

Module Classifier.

Import F64Facts.

Lemma baresoil_mixed x : is_baresoil x && is_mixed x = false.
Proof.
  unfold is_baresoil, is_mixed, F64.geb.
  destruct (x <? 0.2) eqn:E; [|now rewrite andb_false_r].
  now rewrite (ltb_leb_false _ _ E), andb_false_r.
Qed.

Lemma baresoil_vegetation x : is_baresoil x && is_vegetation x = false.
Proof.
  unfold is_baresoil, is_vegetation, F64.gtb.
  destruct (x <? 0.2) eqn:E; [|now rewrite andb_false_r].
  destruct (0.5 <? x) eqn:E'; [|now rewrite andb_false_r].
  pose proof (ltb_trans _ _ _ E' E) as H. vm_compute in H. discriminate.
Qed.

Lemma vegetation_mixed x : is_vegetation x && is_mixed x = false.
Proof.
  unfold is_vegetation, is_mixed, F64.gtb.
  destruct (0.5 <? x) eqn:E; [|reflexivity].
  now rewrite (ltb_leb_false _ _ E), !andb_false_r.
Qed.

Lemma nan_unclassified x :
  is_nan x = true ->
  is_baresoil x = false /\ is_vegetation x = false /\ is_mixed x = false.
Proof.
  intros H. apply is_nan_eq in H. subst x. now vm_compute.
Qed.

Lemma below_unclassified x :
  (x <? -1) = true ->
  is_baresoil x = false /\ is_vegetation x = false /\ is_mixed x = false.
Proof.
  intros H. unfold is_baresoil, is_vegetation, is_mixed, F64.geb, F64.gtb.
  rewrite (ltb_leb_false _ _ H). repeat split; trivial.
  - destruct (0.5 <? x) eqn:E; trivial.
    pose proof (ltb_trans _ _ _ E H) as C. vm_compute in C. discriminate.
  - destruct (0.2 <=? x) eqn:E; trivial.
    pose proof (leb_ltb_trans _ _ _ E H) as C. vm_compute in C. discriminate.
Qed.

Lemma above_unclassified x :
  (1 <? x) = true ->
  is_baresoil x = false /\ is_vegetation x = false /\ is_mixed x = false.
Proof.
  intros H. unfold is_baresoil, is_vegetation, is_mixed, F64.geb, F64.gtb.
  rewrite (ltb_leb_false _ _ H), !andb_false_r. repeat split; trivial.
  - destruct (x <? 0.2) eqn:E; [|now rewrite andb_false_r].
    pose proof (ltb_trans _ _ _ H E) as C. vm_compute in C. discriminate.
  - destruct (x <=? 0.5) eqn:E; [|now rewrite andb_false_r].
    pose proof (ltb_leb_trans _ _ _ H E) as C. vm_compute in C. discriminate.
Qed.

Lemma baresoil_not_nan x : is_baresoil x = true -> is_nan x = false.
Proof.
  unfold is_baresoil. rewrite andb_true_iff. intros [_ H].
  exact (ltb_not_nan_l _ _ H).
Qed.

Lemma vegetation_not_nan x : is_vegetation x = true -> is_nan x = false.
Proof.
  unfold is_vegetation. rewrite andb_true_iff. intros [_ H].
  exact (leb_not_nan_l _ _ H).
Qed.

Lemma mixed_not_nan x : is_mixed x = true -> is_nan x = false.
Proof.
  unfold is_mixed. rewrite andb_true_iff. intros [_ H].
  exact (leb_not_nan_l _ _ H).
Qed.

End Classifier.

(** ** The value each model leaves at one pixel *)

Module Pixel.

Import F64Facts Classifier.

Lemma finite_const c s m e : Prim2SF c = S754_finite s m e -> F64.finite (Prim2SF c).
Proof. intros ->. right. now exists s, m, e. Qed.

Lemma mono_mixed_nan x : is_nan (mono_mixed x) = is_nan x.
Proof.
  unfold mono_mixed.
  rewrite is_nan_add_r by (eapply finite_const; vm_compute; reflexivity).
  erewrite is_nan_mul_l by (vm_compute; reflexivity).
  rewrite is_nan_square.
  erewrite is_nan_div_r by (vm_compute; reflexivity).
  apply is_nan_sub_r. eapply finite_const. vm_compute. reflexivity.
Qed.

Lemma mono_px_baresoil x : is_baresoil x = true -> mono_px x = 0.97.
Proof.
  intros H. unfold mono_px. rewrite (baresoil_not_nan x H).
  pose proof (baresoil_mixed x) as M.
  pose proof (baresoil_vegetation x) as V.
  rewrite H in M, V. simpl in M, V. now rewrite M, V, H.
Qed.

Lemma mono_px_vegetation x : is_vegetation x = true -> mono_px x = 0.99.
Proof.
  intros H. unfold mono_px. rewrite (vegetation_not_nan x H).
  pose proof (vegetation_mixed x) as M.
  rewrite H in M. simpl in M. now rewrite M, H.
Qed.

Lemma mono_px_mixed x : is_mixed x = true -> mono_px x = mono_mixed x.
Proof.
  intros H. unfold mono_px. now rewrite (mixed_not_nan x H), H.
Qed.

Lemma mono_px_unclassified x :
  is_nan x = false ->
  is_baresoil x = false /\ is_vegetation x = false /\ is_mixed x = false ->
  mono_px x = 0.
Proof.
  intros N (B & V & X). unfold mono_px. now rewrite N, B, V, X.
Qed.

Lemma mono_px_nan x : is_nan (mono_px x) = is_nan x.
Proof.
  unfold mono_px. destruct (is_nan x) eqn:N; [reflexivity|].
  destruct (is_mixed x); [now rewrite mono_mixed_nan|].
  destruct (is_vegetation x); [reflexivity|].
  now destruct (is_baresoil x).
Qed.

Lemma nbem_px_nan x r f c : is_nan x = true -> nbem_px x r f c = nan.
Proof. intros H. unfold nbem_px. now rewrite H. Qed.

Lemma nbem_px_baresoil x r f c :
  is_baresoil x = true -> nbem_px x r f c = 0.973 - 0.047 * r.
Proof.
  intros H. unfold nbem_px. rewrite (baresoil_not_nan x H).
  pose proof (baresoil_mixed x) as M.
  pose proof (baresoil_vegetation x) as V.
  rewrite H in M, V. simpl in M, V. now rewrite M, V, H.
Qed.

Lemma nbem_baresoil_nan r : is_nan (0.973 - 0.047 * r) = is_nan r.
Proof.
  rewrite is_nan_sub_l by (eapply finite_const; vm_compute; reflexivity).
  eapply is_nan_mul_l. vm_compute. reflexivity.
Qed.

Lemma nbem_px_unclassified x r f c :
  is_nan x = false ->
  is_baresoil x = false /\ is_vegetation x = false /\ is_mixed x = false ->
  nbem_px x r f c = 0.
Proof.
  intros N (B & V & X). unfold nbem_px. now rewrite N, B, V, X.
Qed.

Lemma outside_unclassified x :
  (x <? -1) = true \/ (1 <? x) = true ->
  is_baresoil x = false /\ is_vegetation x = false /\ is_mixed x = false.
Proof.
  intros [H|H]; [now apply below_unclassified|now apply above_unclassified].
Qed.

End Pixel.

(** ** Running a whole invocation *)

Lemma new_model c nd red :
  c <> ClassEmissivityParent ->
  length (shape nd) = 2%nat ->
  new c nd red = Ok (fresh c nd red (soil_of c) (veg_of c)).
Proof.
  intros Hc H. destruct c; try congruence;
    unfold new, ComputeMonoWindowEmissivity.__init__,
      ComputeEmissivityNBEM.__init__, ComputeEmissivityGopinadh.__init__,
      EmissivityParent.__init__;
    rewrite H; reflexivity.
Qed.

Lemma new_2d c nd red :
  length (shape nd) = 2%nat ->
  exists self,
    new c nd red = Ok self /\ class_of self = c /\ ndvi self = nd /\
    red_band self = red /\ emissivity self = zeros_like nd /\
    nan_mask self = isnan nd.
Proof.
  intros H. destruct c;
    unfold new, ComputeMonoWindowEmissivity.__init__,
      ComputeEmissivityNBEM.__init__, ComputeEmissivityGopinadh.__init__,
      EmissivityParent.__init__;
    rewrite H; eexists; repeat split.
Qed.

Section Invocation.

Context {U : Utils}.

Lemma run_call_mismatch self red :
  red_band self = Some red -> shape (ndvi self) <> shape red ->
  __call__ self =
  (Raise (AssertionError (ValueError
     "Input images (NDVI and Red band) must be of equal dimension")), self).
Proof.
  intros Hr Hs. unfold __call__. step_get. rewrite Hr.
  unfold assert_. rewrite (shape_eqb_neq _ _ Hs). reflexivity.
Qed.

Lemma run_call self e F :
  match red_band self with
  | Some r => shape (ndvi self) = shape r
  | None => True
  end ->
  nan_mask self = isnan (ndvi self) ->
  _compute_emissivity self = (Ok tt, set_emissivity e self) ->
  pointwise e (ndvi self) F ->
  exists out,
    __call__ self = (Ok out, set_emissivity out self) /\
    pointwise out (ndvi self) (fun k x => if is_nan x then nan else F k x).
Proof.
  intros Hr Hm Hc P.
  destruct (setitem_mask_pointwise _ e _ P) as (out & E & Pout).
  exists out. split; [|exact Pout].
  unfold __call__. step_get.
  assert (Hpre :
    match red_band self with
    | Some red =>
        assert_ (shape_eqb (shape (ndvi self)) (shape red))
          (ValueError
             "Input images (NDVI and Red band) must be of equal dimension")
    | None => ret tt
    end self = (Ok tt, self)).
  { destruct (red_band self) as [r|]; [|reflexivity].
    unfold assert_. now rewrite Hr, shape_eqb_refl. }
  rewrite (bind_run _ _ _ _ _ Hpre).
  rewrite (bind_run _ _ _ _ _ Hc).
  rewrite Hm. step_update E. step_get. reflexivity.
Qed.

Lemma invoke_run c nd red self r self' :
  new c nd red = Ok self -> __call__ self = (r, self') ->
  invoke c nd red = (r, Some self').
Proof. intros H1 H2. unfold invoke. now rewrite H1, H2. Qed.

Lemma red_shape nd red :
  valid_inputs nd red ->
  match red with Some r => shape nd = shape r | None => True end.
Proof.
  intros (_ & _ & H). destruct red as [r|]; trivial. now destruct H.
Qed.

(** The mono-window model returns, and what it returns at each pixel. *)
Lemma mono_invoke nd red :
  valid_inputs nd red ->
  exists out,
    invoke ClassComputeMonoWindowEmissivity nd red =
    (Ok out, Some (set_emissivity out
                     (fresh ClassComputeMonoWindowEmissivity nd red
                        0.97 0.99))) /\
    pointwise out nd (fun _ x => mono_px x).
Proof.
  intros V. pose proof (red_shape nd red V) as Hr.
  destruct V as (H2 & Hwf & _).
  destruct (mono_compute nd red Hwf) as (e & E & P).
  destruct (run_call (fresh ClassComputeMonoWindowEmissivity nd red 0.97 0.99)
              e _ Hr eq_refl E P) as (out & C & Pout).
  exists out. split.
  - eapply invoke_run; [|exact C].
    now apply (new_model ClassComputeMonoWindowEmissivity).
  - eapply pointwise_ext; [|exact Pout].
    intros k x _. cbv beta. unfold mono_px. now destruct (is_nan x).
Qed.

(** The NBEM model returns when it is given a red band. *)
Lemma nbem_invoke {H : UtilsSameShape U} nd red :
  valid_inputs nd (Some red) ->
  exists out,
    invoke ClassComputeEmissivityNBEM nd (Some red) =
    (Ok out, Some (set_emissivity out
                     (fresh ClassComputeEmissivityNBEM nd (Some red)
                        0.9668 0.9863))) /\
    pointwise out nd (fun k x =>
      nbem_px x (nth k (data red) 0)
        (nth k (data (fractional_vegetation_cover nd)) 0)
        (nth k (data (cavity_effect (fractional_vegetation_cover nd))) 0)).
Proof.
  intros V. pose proof (red_shape nd _ V) as Hr.
  destruct V as (H2 & Hwf & Lr).
  destruct (nbem_compute nd red Hwf Lr) as (e & E & P).
  destruct (run_call
              (fresh ClassComputeEmissivityNBEM nd (Some red) 0.9668 0.9863)
              e _ Hr eq_refl E P) as (out & C & Pout).
  exists out. split.
  - eapply invoke_run; [|exact C].
    now apply (new_model ClassComputeEmissivityNBEM).
  - eapply pointwise_ext; [|exact Pout].
    intros k x _. cbv beta. unfold nbem_px. now destruct (is_nan x).
Qed.

(** The Gopinadh model returns, with or without a red band. *)
Lemma gopinadh_invoke {H : UtilsSameShape U} nd red :
  valid_inputs nd red ->
  exists out,
    invoke ClassComputeEmissivityGopinadh nd red =
    (Ok out, Some (set_emissivity out
                     (fresh ClassComputeEmissivityGopinadh nd red
                        0.9668 0.9747))) /\
    pointwise out nd (fun k x =>
      if is_nan x then nan
      else gopinadh_blend (nth k (data (fractional_vegetation_cover nd)) 0)).
Proof.
  intros V. pose proof (red_shape nd red V) as Hr.
  destruct V as (H2 & Hwf & _).
  destruct (gopinadh_compute nd red Hwf) as (e & E & P).
  destruct (run_call
              (fresh ClassComputeEmissivityGopinadh nd red 0.9668 0.9747)
              e _ Hr eq_refl E P) as (out & C & Pout).
  exists out. split.
  - eapply invoke_run; [|exact C].
    now apply (new_model ClassComputeEmissivityGopinadh).
  - eapply pointwise_ext; [|exact Pout].
    intros k x _. cbv beta. now destruct (is_nan x).
Qed.

(** A red band of another shape stops every class's call at the shape
    check, with the zero-filled buffer untouched. *)
Lemma invoke_mismatch c nd red :
  length (shape nd) = 2%nat -> shape red <> shape nd ->
  exists self,
    invoke c nd (Some red) =
    (Raise (AssertionError (ValueError
       "Input images (NDVI and Red band) must be of equal dimension")),
     Some self) /\
    emissivity self = zeros_like nd.
Proof.
  intros H2 Hs.
  destruct (new_2d c nd (Some red) H2) as (self & N & _ & Hn & Hr & He & _).
  exists self. split; [|exact He].
  eapply invoke_run; [exact N|].
  apply (run_call_mismatch self red Hr). rewrite Hn. congruence.
Qed.

End Invocation.

(** * The claims *)

Lemma example_utils_same_shape : UtilsSameShape example_utils.
Proof.
  split; intros a Hwf; (split; [reflexivity|]);
    unfold wf in *; simpl; now rewrite length_map.
Defined.

Lemma scene_valid : valid_inputs scene_ndvi (Some scene_red).
Proof. repeat split. Defined.

Lemma scene_valid_no_red : valid_inputs scene_ndvi None.
Proof. repeat split. Defined.

Example scene_mono_window :
  fst (invoke (U := example_utils) ClassComputeMonoWindowEmissivity
         scene_ndvi (Some scene_red)) =
  Ok (array [2; 2]%nat
        [0.97; 0.004 * F64.square ((0.3 - 0.2) / (0.5 - 0.2)) + 0.986;
         0.99; nan]).
Proof. vm_compute. reflexivity. Qed.

Section Claims.

Context {U : Utils}.

Lemma returns_intro c nd red out soil veg :
  invoke c nd red =
  (Ok out, Some (set_emissivity out (fresh c nd red soil veg))) ->
  same_layout out nd ->
  returns c nd red out.
Proof.
  intros E [S _]. eexists. split; [exact E|]. now repeat split.
Qed.

(** C2.  Mono-window model: a pixel with NDVI in [-1, 0.2) is exactly
    0.97 in the output, one with NDVI in (0.5, 1] exactly 0.99, and one
    with NDVI in [0.2, 0.5] exactly
    0.004 * ((ndvi - 0.2) / (0.5 - 0.2))^2 + 0.986, with or without a red
    band. *)
Theorem mono_window_values nd red :
  valid_inputs nd red ->
  exists out,
    returns ClassComputeMonoWindowEmissivity nd red out /\
    forall k x, pixel nd k = Some x ->
      ((-1 <=? x) = true -> (x <? 0.2) = true -> pixel out k = Some 0.97) /\
      ((0.5 <? x) = true -> (x <=? 1) = true -> pixel out k = Some 0.99) /\
      ((0.2 <=? x) = true -> (x <=? 0.5) = true ->
       pixel out k =
       Some (0.004 * F64.square ((x - 0.2) / (0.5 - 0.2)) + 0.986)).
Proof.
  intros V. destruct (mono_invoke nd red V) as (out & E & [L P]).
  exists out. split.
  - eapply returns_intro; [exact E|exact L].
  - intros k x Hx. rewrite (P k x Hx). repeat split; intros H1 H2; f_equal.
    + apply Pixel.mono_px_baresoil. unfold is_baresoil, F64.geb.
      now rewrite H1, H2.
    + apply Pixel.mono_px_vegetation. unfold is_vegetation, F64.gtb.
      now rewrite H1, H2.
    + apply Pixel.mono_px_mixed. unfold is_mixed, F64.geb.
      now rewrite H1, H2.
Qed.

(** C3.  Gopinadh model: at every pixel whose NDVI is not NaN the output
    is 0.9668 * (1 - FVC) + 0.9747 * FVC, whatever the pixel's land-cover
    class: no class enters the statement. *)
Theorem gopinadh_blend_everywhere {H : UtilsSameShape U} nd red :
  valid_inputs nd red ->
  exists out,
    returns ClassComputeEmissivityGopinadh nd red out /\
    forall k x f,
      pixel nd k = Some x -> is_nan x = false ->
      pixel (fractional_vegetation_cover nd) k = Some f ->
      pixel out k = Some (0.9668 * (1 - f) + 0.9747 * f).
Proof.
  intros V. destruct (gopinadh_invoke nd red V) as (out & E & [L P]).
  exists out. split.
  - eapply returns_intro; [exact E|exact L].
  - intros k x f Hx Hn Hf. rewrite (P k x Hx), Hn.
    unfold pixel in Hf. now rewrite (nth_error_nth _ _ 0 Hf).
Qed.

(** C4.  The classifier raises nothing and puts each pixel in at most one
    class; 0.2 and 0.5 are mixed, 1 is vegetation, -1 is baresoil; a pixel
    below -1, above 1 or NaN is in no class. *)
Theorem land_surface_mask_classes (self : instance) :
  exists masks,
    EmissivityParent._get_land_surface_mask self = (Ok masks, self) /\
    forall k x, pixel (ndvi self) k = Some x ->
      exists b v m,
        pixel (baresoil masks) k = Some b /\
        pixel (vegetation masks) k = Some v /\
        pixel (mixed masks) k = Some m /\
        (b && v = false /\ b && m = false /\ v && m = false) /\
        (x = 0.2 -> (b, v, m) = (false, false, true)) /\
        (x = 0.5 -> (b, v, m) = (false, false, true)) /\
        (x = 1 -> (b, v, m) = (false, true, false)) /\
        (x = -1 -> (b, v, m) = (true, false, false)) /\
        ((x <? -1) = true \/ (1 <? x) = true \/ is_nan x = true ->
         (b, v, m) = (false, false, false)).
Proof.
  eexists. split; [apply run_get_land_surface_mask|].
  intros k x Hx. exists (is_baresoil x), (is_vegetation x), (is_mixed x).
  cbn [baresoil vegetation mixed].
  rewrite !(proj2 (pointwise_map1 _ (ndvi self)) k x Hx).
  repeat split; try (intros ->; vm_compute; reflexivity).
  - apply Classifier.baresoil_vegetation.
  - apply Classifier.baresoil_mixed.
  - apply Classifier.vegetation_mixed.
  - intros [H|[H|H]].
    + destruct (Classifier.below_unclassified x H) as (-> & -> & ->).
      reflexivity.
    + destruct (Classifier.above_unclassified x H) as (-> & -> & ->).
      reflexivity.
    + destruct (Classifier.nan_unclassified x H) as (-> & -> & ->).
      reflexivity.
Qed.

(** C1, as amended.  On valid inputs every model returns, and a pixel
    whose NDVI is NaN is NaN in the output.  In the mono-window model the
    converse holds as well.  In the NBEM model a baresoil pixel is NaN in
    the output exactly when its red-band value is NaN. *)
Theorem nan_overlay_every_model {H : UtilsSameShape U} nd red :
  valid_inputs nd red ->
  (exists out,
     returns ClassComputeMonoWindowEmissivity nd red out /\
     forall k x, pixel nd k = Some x ->
       exists y, pixel out k = Some y /\
                 (is_nan y = true <-> is_nan x = true)) /\
  (exists out,
     returns ClassComputeEmissivityGopinadh nd red out /\
     forall k x, pixel nd k = Some x -> is_nan x = true ->
       pixel out k = Some nan) /\
  (forall r, red = Some r ->
     exists out,
       returns ClassComputeEmissivityNBEM nd red out /\
       forall k x v, pixel nd k = Some x -> pixel r k = Some v ->
         exists y, pixel out k = Some y /\
                   (is_nan x = true -> y = nan) /\
                   ((-1 <=? x) = true -> (x <? 0.2) = true ->
                    (is_nan y = true <-> is_nan v = true))).
Proof.
  intros V. repeat split.
  - destruct (mono_invoke nd red V) as (out & E & [L P]).
    exists out. split; [eapply returns_intro; [exact E|exact L]|].
    intros k x Hx. exists (mono_px x). split; [exact (P k x Hx)|].
    now rewrite Pixel.mono_px_nan.
  - destruct (gopinadh_invoke nd red V) as (out & E & [L P]).
    exists out. split; [eapply returns_intro; [exact E|exact L]|].
    intros k x Hx Hn. now rewrite (P k x Hx), Hn.
  - intros r ->. destruct (nbem_invoke nd r V) as (out & E & [L P]).
    exists out. split; [eapply returns_intro; [exact E|exact L]|].
    intros k x v Hx Hv. eexists. split; [exact (P k x Hx)|].
    unfold pixel in Hv. rewrite (nth_error_nth _ _ 0 Hv). split.
    + apply Pixel.nbem_px_nan.
    + intros H1 H2. rewrite Pixel.nbem_px_baresoil.
      * now rewrite Pixel.nbem_baresoil_nan.
      * unfold is_baresoil, F64.geb. now rewrite H1, H2.
Qed.

(** C5.  NBEM without a red band: the call raises the missing-input
    assertion, and the instance still holds the zero-filled buffer. *)
Theorem nbem_requires_red_band nd :
  length (shape nd) = 2%nat ->
  exists self,
    invoke ClassComputeEmissivityNBEM nd None =
    (Raise (AssertionError (ValueError
       "Red band cannot be None for this emissivity computation method")),
     Some self) /\
    emissivity self = zeros_like nd.
Proof.
  intros H2. eexists. split.
  - eapply invoke_run.
    + now apply (new_model ClassComputeEmissivityNBEM).
    + reflexivity.
  - reflexivity.
Qed.

(** C6.  The dispatcher called with "avdan" is the mono-window model
    constructed and invoked on the same arguments. *)
Theorem dispatcher_avdan nd red :
  Emissivity.__call__ (Emissivity.__init__ nd red) "avdan" =
  invoke ClassComputeMonoWindowEmissivity nd red.
Proof. reflexivity. Qed.

(** C7.  For a method name outside the supported set the dispatcher
    raises before any model is constructed; the message it raises names
    none of the supported methods, and neither does the message of
    [get_method]'s own fallback. *)
Theorem dispatcher_unknown_method nd red method :
  ~ In method EMISSIVITY_METHODS ->
  Emissivity.__call__ (Emissivity.__init__ nd red) method =
  (Raise (AssertionError (ValueError "Method not implemented")), None) /\
  existsb (fun name => mentions name "Method not implemented")
    EMISSIVITY_METHODS = false /\
  exists msg,
    Emissivity.get_method method = Raise (NotImplementedError msg) /\
    existsb (fun name => mentions name msg) EMISSIVITY_METHODS = false.
Proof.
  intros Hn.
  assert (Ha : String.eqb method "avdan" = false).
  { apply String.eqb_neq. intros ->. apply Hn. simpl. auto. }
  assert (Hx : String.eqb method "xiaolei" = false).
  { apply String.eqb_neq. intros ->. apply Hn. simpl. auto. }
  assert (Hg : String.eqb method "gopinadh" = false).
  { apply String.eqb_neq. intros ->. apply Hn. simpl. auto. }
  repeat split.
  - unfold Emissivity.__call__, EMISSIVITY_METHODS. simpl existsb.
    now rewrite Ha, Hx, Hg.
  - eexists. split.
    + unfold Emissivity.get_method. rewrite Ha, Hx, Hg. reflexivity.
    + reflexivity.
Qed.

(** C8.  NBEM with a red band of another shape: the call raises the
    shape-mismatch assertion and the instance still holds the zero-filled
    buffer. *)
Theorem nbem_shape_mismatch nd red :
  length (shape nd) = 2%nat -> shape red <> shape nd ->
  exists self,
    invoke ClassComputeEmissivityNBEM nd (Some red) =
    (Raise (AssertionError (ValueError
       "Input images (NDVI and Red band) must be of equal dimension")),
     Some self) /\
    emissivity self = zeros_like nd.
Proof. apply invoke_mismatch. Qed.

(** C9.  Mono-window and NBEM: a pixel whose NDVI is below -1 or above 1
    is in none of the classifier's masks and is 0 in the output. *)
Theorem unclassified_pixels_zero {H : UtilsSameShape U} nd red :
  valid_inputs nd red ->
  (forall self, ndvi self = nd ->
     exists masks,
       EmissivityParent._get_land_surface_mask self = (Ok masks, self) /\
       forall k x, pixel nd k = Some x ->
         (x <? -1) = true \/ (1 <? x) = true ->
         pixel (baresoil masks) k = Some false /\
         pixel (vegetation masks) k = Some false /\
         pixel (mixed masks) k = Some false) /\
  (exists out,
     returns ClassComputeMonoWindowEmissivity nd red out /\
     forall k x, pixel nd k = Some x ->
       (x <? -1) = true \/ (1 <? x) = true ->
       is_nan x = false /\ pixel out k = Some 0) /\
  (forall r, red = Some r ->
     exists out,
       returns ClassComputeEmissivityNBEM nd red out /\
       forall k x, pixel nd k = Some x ->
         (x <? -1) = true \/ (1 <? x) = true ->
         is_nan x = false /\ pixel out k = Some 0).
Proof.
  intros V.
  assert (Hnan : forall x, (x <? -1) = true \/ (1 <? x) = true ->
                           is_nan x = false).
  { intros x [Hx|Hx];
      [exact (F64Facts.ltb_not_nan_l _ _ Hx)
      |exact (F64Facts.ltb_not_nan_r _ _ Hx)]. }
  repeat split.
  - intros self <-. eexists. split; [apply run_get_land_surface_mask|].
    intros k x Hx Ho. cbn [baresoil vegetation mixed].
    rewrite !(proj2 (pointwise_map1 _ (ndvi self)) k x Hx).
    destruct (Pixel.outside_unclassified x Ho) as (-> & -> & ->).
    now repeat split.
  - destruct (mono_invoke nd red V) as (out & E & [L P]).
    exists out. split; [eapply returns_intro; [exact E|exact L]|].
    intros k x Hx Ho. split; [now apply Hnan|].
    rewrite (P k x Hx). f_equal.
    apply Pixel.mono_px_unclassified; [now apply Hnan|].
    now apply Pixel.outside_unclassified.
  - intros r ->. destruct (nbem_invoke nd r V) as (out & E & [L P]).
    exists out. split; [eapply returns_intro; [exact E|exact L]|].
    intros k x Hx Ho. split; [now apply Hnan|].
    rewrite (P k x Hx). f_equal.
    apply Pixel.nbem_px_unclassified; [now apply Hnan|].
    now apply Pixel.outside_unclassified.
Qed.

(** C10.  The shape check belongs to the inherited [__call__]: a red band
    of another shape makes the call fail for every class, the mono-window
    and Gopinadh models included, which never read the red band. *)
Theorem shape_check_for_every_model (c : class) nd red :
  length (shape nd) = 2%nat -> shape red <> shape nd ->
  exists self,
    invoke c nd (Some red) =
    (Raise (AssertionError (ValueError
       "Input images (NDVI and Red band) must be of equal dimension")),
     Some self) /\
    class_of self = c /\ emissivity self = zeros_like nd.
Proof.
  intros H2 Hs.
  destruct (new_2d c nd (Some red) H2) as (self & N & Hc & Hn & Hr & He & _).
  exists self. split; [|now split].
  eapply invoke_run; [exact N|].
  apply (run_call_mismatch self red Hr). rewrite Hn. congruence.
Qed.

End Claims.

(** ** C1 as stated, and the input that refutes it *)

(** C1, refuted.  Whatever [emissivity.utils] computes, the NBEM model
    turns the baresoil pixel of [nan_red_ndvi] into NaN. *)
Lemma nan_mask_fidelity_fails :
  ~ exists U : Utils, nan_mask_fidelity U ClassComputeEmissivityNBEM.
Proof.
  intros [U H].
  assert (R : returns ClassComputeEmissivityNBEM nan_red_ndvi
                (Some nan_red_band) (array [1; 1]%nat [nan])).
  { eexists. split; [vm_compute; reflexivity|]. now repeat split. }
  destruct (H _ _ _ 0%nat (-0.5) nan R eq_refl eq_refl) as [H1 _].
  specialize (H1 eq_refl). vm_compute in H1. discriminate.
Qed.

(** ** The theorems at concrete inputs *)

Lemma nan_overlay_every_model_witness :
  valid_inputs scene_ndvi (Some scene_red) /\
  exists out,
    returns (U := example_utils) ClassComputeEmissivityNBEM
      scene_ndvi (Some scene_red) out /\
    pixel out 3 = Some nan.
Proof.
  split; [exact scene_valid|].
  destruct (nan_overlay_every_model (U := example_utils)
              (H := example_utils_same_shape)
              scene_ndvi (Some scene_red) scene_valid) as (_ & _ & N).
  destruct (N scene_red eq_refl) as (out & R & P).
  exists out. split; [exact R|].
  destruct (P 3%nat nan 0.3 eq_refl eq_refl) as (y & Hy & Hn & _).
  now rewrite Hy, (Hn eq_refl).
Defined.

Lemma mono_window_values_witness :
  valid_inputs scene_ndvi None /\
  exists out,
    returns (U := example_utils) ClassComputeMonoWindowEmissivity
      scene_ndvi None out /\
    pixel out 0 = Some 0.97 /\
    pixel out 1 =
      Some (0.004 * F64.square ((0.3 - 0.2) / (0.5 - 0.2)) + 0.986) /\
    pixel out 2 = Some 0.99.
Proof.
  split; [exact scene_valid_no_red|].
  destruct (mono_window_values (U := example_utils) scene_ndvi None
              scene_valid_no_red) as (out & R & P).
  exists out. split; [exact R|]. repeat split.
  - now apply (P 0%nat (-0.5) eq_refl).
  - now apply (P 1%nat 0.3 eq_refl).
  - now apply (P 2%nat 0.7 eq_refl).
Defined.

Lemma gopinadh_blend_everywhere_witness :
  valid_inputs scene_ndvi (Some scene_red) /\
  exists out,
    returns (U := example_utils) ClassComputeEmissivityGopinadh
      scene_ndvi (Some scene_red) out /\
    pixel out 0 =
      Some (0.9668 * (1 - F64.square ((-0.5 - 0.2) / (0.5 - 0.2)))
            + 0.9747 * F64.square ((-0.5 - 0.2) / (0.5 - 0.2))).
Proof.
  split; [exact scene_valid|].
  destruct (gopinadh_blend_everywhere (U := example_utils)
              (H := example_utils_same_shape)
              scene_ndvi (Some scene_red) scene_valid) as (out & R & P).
  exists out. split; [exact R|].
  now apply (P 0%nat (-0.5) _ eq_refl eq_refl).
Defined.

Lemma nbem_requires_red_band_witness :
  length (shape scene_ndvi) = 2%nat /\
  exists self,
    invoke (U := example_utils) ClassComputeEmissivityNBEM scene_ndvi None =
    (Raise (AssertionError (ValueError
       "Red band cannot be None for this emissivity computation method")),
     Some self) /\
    emissivity self = array [2; 2]%nat [0; 0; 0; 0].
Proof.
  split; [reflexivity|].
  exact (nbem_requires_red_band (U := example_utils) scene_ndvi eq_refl).
Defined.

Lemma dispatcher_unknown_method_witness :
  ~ In "unknown"%string EMISSIVITY_METHODS /\
  Emissivity.__call__ (U := example_utils)
    (Emissivity.__init__ scene_ndvi (Some scene_red)) "unknown" =
  (Raise (AssertionError (ValueError "Method not implemented")), None).
Proof.
  assert (Hn : ~ In "unknown"%string EMISSIVITY_METHODS).
  { simpl. intros [E|[E|[E|[]]]]; discriminate E. }
  split; [exact Hn|].
  exact (proj1 (dispatcher_unknown_method (U := example_utils)
                  scene_ndvi (Some scene_red) "unknown" Hn)).
Defined.

Lemma shapes_differ : shape red_3x4 <> shape ndvi_3x3.
Proof. discriminate. Defined.

Lemma nbem_shape_mismatch_witness :
  length (shape ndvi_3x3) = 2%nat /\ shape red_3x4 <> shape ndvi_3x3 /\
  exists self,
    invoke (U := example_utils) ClassComputeEmissivityNBEM ndvi_3x3
      (Some red_3x4) =
    (Raise (AssertionError (ValueError
       "Input images (NDVI and Red band) must be of equal dimension")),
     Some self) /\
    emissivity self = zeros_like ndvi_3x3.
Proof.
  split; [reflexivity|]. split; [exact shapes_differ|].
  exact (nbem_shape_mismatch (U := example_utils) ndvi_3x3 red_3x4
           eq_refl shapes_differ).
Defined.

Lemma out_of_range_valid :
  valid_inputs out_of_range_ndvi (Some out_of_range_red).
Proof. repeat split. Defined.

Lemma unclassified_pixels_zero_witness :
  valid_inputs out_of_range_ndvi (Some out_of_range_red) /\
  exists out,
    returns (U := example_utils) ClassComputeEmissivityNBEM
      out_of_range_ndvi (Some out_of_range_red) out /\
    pixel out 0 = Some 0 /\ pixel out 2 = Some 0.
Proof.
  split; [exact out_of_range_valid|].
  destruct (unclassified_pixels_zero (U := example_utils)
              (H := example_utils_same_shape)
              out_of_range_ndvi (Some out_of_range_red) out_of_range_valid)
    as (_ & _ & N).
  destruct (N out_of_range_red eq_refl) as (out & R & P).
  exists out. split; [exact R|]. split.
  - now apply (P 0%nat (-1.5) eq_refl); left.
  - now apply (P 2%nat infinity eq_refl); right.
Defined.

Lemma shape_check_for_every_model_witness :
  length (shape ndvi_3x3) = 2%nat /\ shape red_3x4 <> shape ndvi_3x3 /\
  exists self,
    invoke (U := example_utils) ClassComputeMonoWindowEmissivity ndvi_3x3
      (Some red_3x4) =
    (Raise (AssertionError (ValueError
       "Input images (NDVI and Red band) must be of equal dimension")),
     Some self) /\
    class_of self = ClassComputeMonoWindowEmissivity /\
    emissivity self = zeros_like ndvi_3x3.
Proof.
  split; [reflexivity|]. split; [exact shapes_differ|].
  exact (shape_check_for_every_model (U := example_utils)
           ClassComputeMonoWindowEmissivity ndvi_3x3 red_3x4
           eq_refl shapes_differ).
Defined.

(** * Further properties of the code *)

Lemma pointwise_unique (a b : ndarray float) nd F :
  pointwise a nd F -> pointwise b nd F -> a = b.
Proof.
  intros [[Sa La] Pa] [[Sb Lb] Pb].
  destruct a as [sa da], b as [sb db]. simpl in *.
  f_equal; [congruence|].
  apply nth_error_ext. intros k.
  destruct (nth_error (data nd) k) as [x|] eqn:E.
  - unfold pixel in Pa, Pb. simpl in Pa, Pb.
    now rewrite (Pa k x E), (Pb k x E).
  - apply nth_error_None in E.
    rewrite (proj2 (nth_error_None da k)) by lia.
    now rewrite (proj2 (nth_error_None db k)) by lia.
Qed.

Lemma nbem_px_mixed x r f c :
  is_mixed x = true -> nbem_px x r f c = (0.9863 * f + 0.9668 * (1 - f)) + c.
Proof.
  intros H. unfold nbem_px. rewrite (Classifier.mixed_not_nan x H).
  pose proof (Classifier.vegetation_mixed x) as V.
  rewrite H, andb_true_r in V. now rewrite V, H.
Qed.

Lemma nbem_px_vegetation x r f c :
  is_vegetation x = true -> nbem_px x r f c = 0.9863 + c.
Proof.
  intros H. unfold nbem_px.
  now rewrite (Classifier.vegetation_not_nan x H), H.
Qed.

Lemma nbem_px_red_irrelevant x r r' f c :
  is_baresoil x = false -> nbem_px x r f c = nbem_px x r' f c.
Proof. intros H. unfold nbem_px. now rewrite H. Qed.

Lemma layout_wf (out nd : ndarray float) : same_layout out nd -> wf nd -> wf out.
Proof. apply same_layout_wf. Qed.

(** X1.  An NDVI array that is not two-dimensional is refused by the
    constructor of every class, whatever the red band: no instance comes
    to exist and the message carries the shape as Python prints it. *)
Theorem ndvi_must_be_two_dimensional {U : Utils} (c : class) nd red :
  length (shape nd) <> 2%nat ->
  invoke c nd red =
  (Raise (AssertionError (ValueError
     ("Input must be single band image with two dimensions only. "
        ++ repr_shape (shape nd)))), None).
Proof.
  intros H. apply Nat.eqb_neq in H.
  destruct c;
    unfold invoke, new, ComputeMonoWindowEmissivity.__init__,
      ComputeEmissivityNBEM.__init__, ComputeEmissivityGopinadh.__init__,
      EmissivityParent.__init__;
    now rewrite H.
Qed.

Lemma ndvi_must_be_two_dimensional_witness :
  length (shape ndvi_1d) <> 2%nat /\
  invoke (U := example_utils) ClassComputeEmissivityNBEM ndvi_1d None =
  (Raise (AssertionError (ValueError
     "Input must be single band image with two dimensions only. (4,)")),
   None).
Proof.
  assert (H : length (shape ndvi_1d) <> 2%nat) by discriminate.
  split; [exact H|].
  exact (ndvi_must_be_two_dimensional (U := example_utils)
           ClassComputeEmissivityNBEM ndvi_1d None H).
Defined.

(** X2.  The base class, instantiated and called directly on arguments
    that pass both shape checks, raises [NotImplementedError] from its own
    [_compute_emissivity] and leaves the zero-filled buffer. *)
Theorem base_class_is_abstract {U : Utils} nd red :
  length (shape nd) = 2%nat ->
  match red with Some r => shape r = shape nd | None => True end ->
  exists self,
    invoke ClassEmissivityParent nd red =
    (Raise (NotImplementedError
       "No emissivity computation logic implemented yet"), Some self) /\
    class_of self = ClassEmissivityParent /\
    emissivity self = zeros_like nd.
Proof.
  intros H2 Hr. eexists. split.
  - unfold invoke, new, EmissivityParent.__init__. rewrite H2.
    cbn [Nat.eqb]. unfold __call__. step_get.
    destruct red as [r|].
    + unfold assert_. rewrite Hr, shape_eqb_refl. reflexivity.
    + reflexivity.
  - split; reflexivity.
Qed.

Lemma base_class_is_abstract_witness :
  length (shape scene_ndvi) = 2%nat /\
  exists self,
    invoke (U := example_utils) ClassEmissivityParent scene_ndvi
      (Some scene_red) =
    (Raise (NotImplementedError
       "No emissivity computation logic implemented yet"), Some self) /\
    class_of self = ClassEmissivityParent /\
    emissivity self = zeros_like scene_ndvi.
Proof.
  split; [reflexivity|].
  exact (base_class_is_abstract (U := example_utils) scene_ndvi
           (Some scene_red) eq_refl eq_refl).
Defined.

(** X3.  On valid inputs each of the three models returns a well-formed
    raster of the shape of the NDVI raster (NBEM when it is given a red
    band). *)
Theorem output_has_ndvi_shape {U : Utils} {H : UtilsSameShape U} nd red :
  valid_inputs nd red ->
  (exists out,
     returns ClassComputeMonoWindowEmissivity nd red out /\
     shape out = shape nd /\ wf out) /\
  (exists out,
     returns ClassComputeEmissivityGopinadh nd red out /\
     shape out = shape nd /\ wf out) /\
  (forall r, red = Some r ->
     exists out,
       returns ClassComputeEmissivityNBEM nd red out /\
       shape out = shape nd /\ wf out).
Proof.
  intros V. assert (Hwf : wf nd) by apply V. repeat split.
  - destruct (mono_invoke nd red V) as (out & E & [L P]).
    exists out. split; [eapply returns_intro; [exact E|exact L]|].
    split; [apply L|now apply (layout_wf out nd)].
  - destruct (gopinadh_invoke nd red V) as (out & E & [L P]).
    exists out. split; [eapply returns_intro; [exact E|exact L]|].
    split; [apply L|now apply (layout_wf out nd)].
  - intros r ->. destruct (nbem_invoke nd r V) as (out & E & [L P]).
    exists out. split; [eapply returns_intro; [exact E|exact L]|].
    split; [apply L|now apply (layout_wf out nd)].
Qed.

Lemma output_has_ndvi_shape_witness :
  valid_inputs scene_ndvi (Some scene_red) /\
  exists out,
    returns (U := example_utils) ClassComputeEmissivityGopinadh
      scene_ndvi (Some scene_red) out /\
    shape out = [2; 2]%nat /\ length (data out) = 4%nat.
Proof.
  split; [exact scene_valid|].
  destruct (output_has_ndvi_shape (U := example_utils)
              (H := example_utils_same_shape)
              scene_ndvi (Some scene_red) scene_valid)
    as (_ & (out & R & S & W) & _).
  exists out. split; [exact R|]. split; [exact S|].
  unfold wf in W. now rewrite W, S.
Defined.

(** X4.  NBEM model: a baresoil pixel is 0.973 - 0.047 * red, a mixed
    pixel 0.9863 * FVC + 0.9668 * (1 - FVC) + cavity, a vegetation pixel
    0.9863 + cavity, each read at that pixel. *)
Theorem nbem_values {U : Utils} {H : UtilsSameShape U} nd r :
  valid_inputs nd (Some r) ->
  exists out,
    returns ClassComputeEmissivityNBEM nd (Some r) out /\
    forall k x v f c,
      pixel nd k = Some x -> pixel r k = Some v ->
      pixel (fractional_vegetation_cover nd) k = Some f ->
      pixel (cavity_effect (fractional_vegetation_cover nd)) k = Some c ->
      ((-1 <=? x) = true -> (x <? 0.2) = true ->
       pixel out k = Some (0.973 - 0.047 * v)) /\
      ((0.2 <=? x) = true -> (x <=? 0.5) = true ->
       pixel out k = Some ((0.9863 * f + 0.9668 * (1 - f)) + c)) /\
      ((0.5 <? x) = true -> (x <=? 1) = true ->
       pixel out k = Some (0.9863 + c)).
Proof.
  intros V. destruct (nbem_invoke nd r V) as (out & E & [L P]).
  exists out. split; [eapply returns_intro; [exact E|exact L]|].
  intros k x v f c Hx Hv Hf Hc. rewrite (P k x Hx).
  unfold pixel in Hv, Hf, Hc.
  rewrite (nth_error_nth _ _ 0 Hv), (nth_error_nth _ _ 0 Hf),
    (nth_error_nth _ _ 0 Hc).
  repeat split; intros H1 H2; f_equal.
  - apply Pixel.nbem_px_baresoil. unfold is_baresoil, F64.geb.
    now rewrite H1, H2.
  - apply nbem_px_mixed. unfold is_mixed, F64.geb. now rewrite H1, H2.
  - apply nbem_px_vegetation. unfold is_vegetation, F64.gtb.
    now rewrite H1, H2.
Qed.

Lemma nbem_values_witness :
  valid_inputs scene_ndvi (Some scene_red) /\
  exists out,
    returns (U := example_utils) ClassComputeEmissivityNBEM
      scene_ndvi (Some scene_red) out /\
    pixel out 0 = Some (0.973 - 0.047 * 0.2).
Proof.
  split; [exact scene_valid|].
  destruct (nbem_values (U := example_utils) (H := example_utils_same_shape)
              scene_ndvi scene_red scene_valid) as (out & R & P).
  exists out. split; [exact R|].
  now apply (P 0%nat (-0.5) 0.2 _ _ eq_refl eq_refl eq_refl eq_refl).
Defined.

Lemma overlay_again {U : Utils} self e F :
  match red_band self with
  | Some r => shape (ndvi self) = shape r
  | None => True
  end ->
  nan_mask self = isnan (ndvi self) ->
  _compute_emissivity self = (Ok tt, set_emissivity e self) ->
  pointwise e (ndvi self) F ->
  (forall k x, is_nan x = true -> F k x = nan) ->
  __call__ self = (Ok e, set_emissivity e self).
Proof.
  intros Hr Hm Hc P HF.
  destruct (run_call self e F Hr Hm Hc P) as (out & C & Pout).
  assert (E : out = e).
  { apply (pointwise_unique out e (ndvi self) F); [|exact P].
    eapply pointwise_ext; [|exact Pout].
    intros k x _. cbv beta. destruct (is_nan x) eqn:N; [|reflexivity].
    symmetry. now apply HF. }
  now rewrite <- E.
Qed.

(** X5.  For each model on valid inputs the array [_compute_emissivity]
    leaves in [self.emissivity] is already the array [__call__] returns:
    the NaN overlay of [__call__] repeats the model's own and changes
    nothing. *)
Theorem call_overlay_is_idempotent {U : Utils} {H : UtilsSameShape U} nd red :
  valid_inputs nd red ->
  forall c self,
    c = ClassComputeMonoWindowEmissivity \/
    c = ClassComputeEmissivityGopinadh \/
    (c = ClassComputeEmissivityNBEM /\ red <> None) ->
    new c nd red = Ok self ->
    exists e,
      _compute_emissivity self = (Ok tt, set_emissivity e self) /\
      __call__ self = (Ok e, set_emissivity e self).
Proof.
  intros V c self Hc N. pose proof (red_shape nd red V) as Hr.
  destruct V as (H2 & Hwf & Lr).
  destruct Hc as [->|[->|[-> Hred]]];
    rewrite new_model in N by (trivial; discriminate);
    injection N as <-; cbn [soil_of veg_of].
  - destruct (mono_compute nd red Hwf) as (e & E & P).
    exists e. split; [exact E|].
    eapply overlay_again; [exact Hr|reflexivity|exact E|exact P|].
    intros k x Hn. unfold mono_px. now rewrite Hn.
  - destruct (gopinadh_compute nd red Hwf) as (e & E & P).
    exists e. split; [exact E|].
    eapply overlay_again; [exact Hr|reflexivity|exact E|exact P|].
    intros k x Hn. cbv beta. now rewrite Hn.
  - destruct red as [r|]; [|congruence].
    destruct (nbem_compute nd r Hwf Lr) as (e & E & P).
    exists e. split; [exact E|].
    eapply overlay_again; [exact Hr|reflexivity|exact E|exact P|].
    intros k x Hn. cbv beta. now apply Pixel.nbem_px_nan.
Qed.

Lemma scene_red_given : Some scene_red <> None.
Proof. discriminate. Defined.

Lemma call_overlay_is_idempotent_witness :
  valid_inputs scene_ndvi (Some scene_red) /\
  exists self e,
    new ClassComputeEmissivityNBEM scene_ndvi (Some scene_red) = Ok self /\
    _compute_emissivity (U := example_utils) self =
      (Ok tt, set_emissivity e self) /\
    __call__ (U := example_utils) self = (Ok e, set_emissivity e self).
Proof.
  split; [exact scene_valid|].
  eexists.
  destruct (call_overlay_is_idempotent (U := example_utils)
              (H := example_utils_same_shape)
              scene_ndvi (Some scene_red) scene_valid
              ClassComputeEmissivityNBEM _
              (or_intror (or_intror (conj eq_refl scene_red_given)))
              eq_refl) as (e & E1 & E2).
  exists e. split; [reflexivity|]. split; [exact E1|exact E2].
Defined.

(** X9.  The mono-window and Gopinadh models ignore the red band: two
    calls on one NDVI raster return the same array whatever red band, if
    any, each is given; the mono-window result does not depend on
    [emissivity.utils] either. *)
Theorem red_band_is_ignored {U U' : Utils} {H : UtilsSameShape U}
  nd red red' :
  valid_inputs nd red -> valid_inputs nd red' ->
  (exists out,
     returns (U := U) ClassComputeMonoWindowEmissivity nd red out /\
     returns (U := U') ClassComputeMonoWindowEmissivity nd red' out) /\
  (exists out,
     returns (U := U) ClassComputeEmissivityGopinadh nd red out /\
     returns (U := U) ClassComputeEmissivityGopinadh nd red' out).
Proof.
  intros V V'. split.
  - destruct (mono_invoke (U := U) nd red V) as (out & E & P).
    destruct (mono_invoke (U := U') nd red' V') as (out' & E' & P').
    assert (X : out' = out) by (eapply pointwise_unique; eassumption).
    subst out'. exists out. split.
    + eapply returns_intro; [exact E|apply P].
    + eapply returns_intro; [exact E'|apply P].
  - destruct (gopinadh_invoke nd red V) as (out & E & P).
    destruct (gopinadh_invoke nd red' V') as (out' & E' & P').
    assert (X : out' = out) by (eapply pointwise_unique; eassumption).
    subst out'. exists out. split.
    + eapply returns_intro; [exact E|apply P].
    + eapply returns_intro; [exact E'|apply P].
Qed.

Lemma red_band_is_ignored_witness :
  valid_inputs scene_ndvi (Some scene_red) /\ valid_inputs scene_ndvi None /\
  exists out,
    returns (U := example_utils) ClassComputeEmissivityGopinadh
      scene_ndvi (Some scene_red) out /\
    returns (U := example_utils) ClassComputeEmissivityGopinadh
      scene_ndvi None out.
Proof.
  split; [exact scene_valid|]. split; [exact scene_valid_no_red|].
  exact (proj2 (red_band_is_ignored (U := example_utils)
                  (U' := example_utils) (H := example_utils_same_shape)
                  scene_ndvi (Some scene_red) None
                  scene_valid scene_valid_no_red)).
Defined.

(** X10.  The NBEM model reads the red band at baresoil pixels only: two
    red bands that agree wherever NDVI is in [-1, 0.2) give the same
    array. *)
Theorem nbem_reads_red_at_baresoil_only {U : Utils} {H : UtilsSameShape U}
  nd r r' :
  valid_inputs nd (Some r) -> valid_inputs nd (Some r') ->
  (forall k x, pixel nd k = Some x ->
     (-1 <=? x) = true -> (x <? 0.2) = true -> pixel r k = pixel r' k) ->
  exists out,
    returns ClassComputeEmissivityNBEM nd (Some r) out /\
    returns ClassComputeEmissivityNBEM nd (Some r') out.
Proof.
  intros V V' A.
  destruct (nbem_invoke nd r V) as (out & E & P).
  destruct (nbem_invoke nd r' V') as (out' & E' & P').
  assert (X : out' = out).
  { eapply pointwise_unique; [|exact P].
    eapply pointwise_ext; [|exact P'].
    intros k x Hx. cbv beta.
    destruct (is_baresoil x) eqn:B; [|now apply nbem_px_red_irrelevant].
    unfold is_baresoil, F64.geb in B. apply andb_true_iff in B.
    destruct B as [B1 B2]. specialize (A k x Hx B1 B2).
    assert (Hk : (k < length (data nd))%nat).
    { apply nth_error_Some. unfold pixel in Hx. congruence. }
    destruct V as (_ & _ & [_ L]), V' as (_ & _ & [_ L']).
    unfold pixel in A.
    rewrite (nth_error_nth' (data r) 0) in A by lia.
    rewrite (nth_error_nth' (data r') 0) in A by lia.
    injection A as A. now rewrite A. }
  subst out'. exists out. split.
  - eapply returns_intro; [exact E|apply P].
  - eapply returns_intro; [exact E'|apply P].
Qed.

Lemma scene_valid' : valid_inputs scene_ndvi (Some scene_red').
Proof. repeat split. Defined.

Lemma scene_reds_agree_on_baresoil :
  forall k x, pixel scene_ndvi k = Some x ->
    (-1 <=? x) = true -> (x <? 0.2) = true ->
    pixel scene_red k = pixel scene_red' k.
Proof.
  intros [|[|[|[|k]]]] x Hx H1 H2; trivial.
  - injection Hx as <-. discriminate H2.
  - injection Hx as <-. discriminate H2.
Defined.

Lemma nbem_reads_red_at_baresoil_only_witness :
  valid_inputs scene_ndvi (Some scene_red) /\
  valid_inputs scene_ndvi (Some scene_red') /\
  exists out,
    returns (U := example_utils) ClassComputeEmissivityNBEM
      scene_ndvi (Some scene_red) out /\
    returns (U := example_utils) ClassComputeEmissivityNBEM
      scene_ndvi (Some scene_red') out.
Proof.
  split; [exact scene_valid|]. split; [exact scene_valid'|].
  exact (nbem_reads_red_at_baresoil_only (U := example_utils)
           (H := example_utils_same_shape)
           scene_ndvi scene_red scene_red'
           scene_valid scene_valid' scene_reds_agree_on_baresoil).
Defined.

(** ** What a call never does *)

Lemma frame_refl s : frame s s.
Proof. now destruct s. Qed.

Lemma frame_trans s s' s'' : frame s s' -> frame s' s'' -> frame s s''.
Proof.
  unfold frame, set_emissivity. destruct s, s', s''. simpl.
  intros H1 H2. congruence.
Qed.

Lemma frame_set e s : frame s (set_emissivity e s).
Proof. now destruct s. Qed.

Lemma admits_model_exception : admits model_exception.
Proof. now repeat split. Qed.

Lemma admits_any : admits (fun _ => True).
Proof. now repeat split. Qed.

Section Post.

Variable P : exception -> Prop.
Hypothesis HP : admits P.

Lemma raises_only_ok {A} (a : A) : raises_only P (Ok a).
Proof. intros e E. discriminate. Qed.

Lemma raises_only_map2 {A B C} (f : A -> B -> C) a b :
  raises_only P (map2 f a b).
Proof.
  intros e. unfold map2. destruct (shape_eqb _ _); [discriminate|].
  intros E. injection E as <-. apply HP.
Qed.

Lemma raises_only_getitem {A} (a : ndarray A) ixs :
  raises_only P (getitem a ixs).
Proof.
  intros e. unfold getitem, out_of_bounds.
  destruct (offsets a ixs); [destruct (mapM _ _); [discriminate|]|];
    intros E; injection E as <-; apply HP.
Qed.

Lemma raises_only_setitem_scalar {A} (a : ndarray A) ixs v :
  raises_only P (setitem_scalar a ixs v).
Proof.
  intros e. unfold setitem_scalar, out_of_bounds.
  destruct (offsets a ixs); [discriminate|].
  intros E; injection E as <-; apply HP.
Qed.

Lemma raises_only_setitem_array {A} (a : ndarray A) ixs vs :
  raises_only P (setitem_array a ixs vs).
Proof.
  intros e. unfold setitem_array, out_of_bounds.
  destruct (offsets a ixs); [destruct (shape_eqb _ _); [discriminate|]|];
    intros E; injection E as <-; apply HP.
Qed.

Lemma raises_only_setitem_mask {A} (a : ndarray A) m v :
  raises_only P (setitem_mask a m v).
Proof.
  intros e. unfold setitem_mask. destruct (shape_eqb _ _); [discriminate|].
  intros E; injection E as <-; apply HP.
Qed.

Lemma post_ret {A} (a : A) : post P (ret a).
Proof.
  intros s r s' E. injection E as <- <-. split; [apply frame_refl|].
  discriminate.
Qed.

Lemma post_get : post P get.
Proof.
  intros s r s' E. injection E as <- <-. split; [apply frame_refl|].
  discriminate.
Qed.

Lemma post_raise {A} e : P e -> post P (@raise instance A e).
Proof.
  intros He s r s' E. injection E as <- <-. split; [apply frame_refl|].
  intros e' E'. now injection E' as <-.
Qed.

Lemma post_lift {A} (r : result A) : raises_only P r -> post P (lift r).
Proof.
  intros Hr s r' s' E. injection E as <- <-. split; [apply frame_refl|].
  exact Hr.
Qed.

Lemma post_attr {A} (f : instance -> option A) n : post P (attr f n).
Proof.
  intros s r s'. unfold attr. destruct (f s); intros E;
    injection E as <- <-; (split; [apply frame_refl|]); [discriminate|].
  intros e E. injection E as <-. apply HP.
Qed.

Lemma post_assert b e : post P (assert_ b e).
Proof.
  unfold assert_. destruct b; [apply post_ret|apply post_raise, HP].
Qed.

Lemma post_update f :
  (forall a, raises_only P (f a)) -> post P (update_emissivity f).
Proof.
  intros Hf s r s'. unfold update_emissivity.
  destruct (f (emissivity s)) eqn:F; intros E; injection E as <- <-.
  - split; [apply frame_set|discriminate].
  - split; [apply frame_refl|]. intros e' E'. injection E' as <-.
    exact (Hf _ _ F).
Qed.

Lemma post_bind {A B} (c : M instance A) (k : A -> M instance B) :
  post P c -> (forall a, post P (k a)) -> post P (bind c k).
Proof.
  intros Hc Hk s r s'. unfold bind.
  destruct (c s) as [[a|e] s1] eqn:C; intros E.
  - destruct (Hc _ _ _ C) as [F1 _]. destruct (Hk a _ _ _ E) as [F2 R].
    split; [eapply frame_trans; eassumption|exact R].
  - injection E as <- <-. destruct (Hc _ _ _ C) as [F R].
    split; [exact F|]. intros e' E'. injection E' as <-.
    exact (R e eq_refl).
Qed.

(** [self.emissivity = b]: the one place an attribute is rebound. *)
Lemma post_rebind {B} b (k : instance -> unit -> M instance B) :
  (forall self u, post P (k self u)) ->
  post P (bind get (fun self => bind (put (set_emissivity b self)) (k self))).
Proof.
  intros Hk s r s' E. unfold bind, get, put in E.
  destruct (Hk s tt _ _ _ E) as [F R]. split; [|exact R].
  eapply frame_trans; [apply frame_set|exact F].
Qed.

Ltac post_step :=
  first
    [ apply post_rebind; intros
    | apply post_bind; [|intros]
    | apply post_ret
    | apply post_get
    | apply post_attr
    | apply post_assert
    | apply post_lift
    | apply post_update; intros
    | apply raises_only_ok
    | apply raises_only_map2
    | apply raises_only_getitem
    | apply raises_only_setitem_scalar
    | apply raises_only_setitem_array
    | apply raises_only_setitem_mask ].

Lemma post_get_landcover_mask_indices :
  post P EmissivityParent._get_landcover_mask_indices.
Proof.
  unfold EmissivityParent._get_landcover_mask_indices,
    EmissivityParent._get_land_surface_mask.
  repeat post_step.
Qed.

Lemma post_mono_window :
  post P ComputeMonoWindowEmissivity._compute_emissivity.
Proof.
  unfold ComputeMonoWindowEmissivity._compute_emissivity.
  apply post_bind; [apply post_get_landcover_mask_indices|intros].
  repeat post_step.
Qed.

Context {U : Utils}.

Lemma post_nbem : post P ComputeEmissivityNBEM._compute_emissivity.
Proof.
  unfold ComputeEmissivityNBEM._compute_emissivity,
    EmissivityParent._compute_cavity_effect, EmissivityParent._compute_fvc.
  do 2 (apply post_bind; [post_step|intros]).
  apply post_bind; [apply post_get_landcover_mask_indices|intros].
  do 2 (apply post_bind; [repeat post_step|intros]).
  apply post_bind.
  { unfold ComputeEmissivityNBEM.subscriptable.
    destruct (red_band _); [apply post_ret|apply post_raise, HP]. }
  intros. repeat post_step.
Qed.

Lemma post_gopinadh : post P ComputeEmissivityGopinadh._compute_emissivity.
Proof.
  unfold ComputeEmissivityGopinadh._compute_emissivity,
    EmissivityParent._compute_fvc.
  repeat post_step.
Qed.

Lemma compute_post s r s' :
  _compute_emissivity s = (r, s') ->
  frame s s' /\
  (class_of s <> ClassEmissivityParent -> forall e, r = Raise e -> P e).
Proof.
  unfold _compute_emissivity, bind, get.
  destruct (class_of s); intros E.
  - injection E as <- <-. split; [apply frame_refl|congruence].
  - destruct (post_mono_window _ _ _ E). now split.
  - destruct (post_nbem _ _ _ E). now split.
  - destruct (post_gopinadh _ _ _ E). now split.
Qed.

Lemma call_rest_post s r s' :
  bind _compute_emissivity
    (fun _ =>
       bind (update_emissivity
               (fun emm => setitem_mask emm (nan_mask s) nan))
         (fun _ => bind get (fun self' => ret (emissivity self')))) s =
  (r, s') ->
  frame s s' /\
  (class_of s <> ClassEmissivityParent -> forall e, r = Raise e -> P e).
Proof.
  unfold bind at 1.
  destruct (_compute_emissivity s) as [[u1|e1] s1] eqn:E1; intros E.
  - destruct (compute_post _ _ _ E1) as [F1 _].
    assert (Hrest : post P
      (bind (update_emissivity
               (fun emm => setitem_mask emm (nan_mask s) nan))
         (fun _ => bind get (fun self' => ret (emissivity self'))))).
    { repeat post_step. }
    destruct (Hrest _ _ _ E) as [F2 R]. split.
    + eapply frame_trans; eassumption.
    + intros _. exact R.
  - injection E as <- <-.
    destruct (compute_post _ _ _ E1) as [F1 R1]. split; [exact F1|].
    intros Hc e E. injection E as <-. exact (R1 Hc e1 eq_refl).
Qed.

Lemma call_post s r s' :
  __call__ s = (r, s') ->
  frame s s' /\
  (class_of s <> ClassEmissivityParent -> forall e, r = Raise e -> P e).
Proof.
  unfold __call__.
  rewrite (bind_run get _ s s s eq_refl).
  destruct (red_band s) as [red|].
  - unfold assert_. destruct (shape_eqb _ _).
    + rewrite (bind_run (ret tt) _ s tt s eq_refl). apply call_rest_post.
    + intros E. injection E as <- <-. split; [apply frame_refl|].
      intros _ e E. injection E as <-. apply HP.
  - rewrite (bind_run (ret tt) _ s tt s eq_refl). apply call_rest_post.
Qed.

End Post.

(** X6.  A call, whatever the class, the arguments and its outcome, leaves
    every attribute of the instance but [emissivity] as it found it. *)
Theorem call_changes_only_emissivity {U : Utils} self r self' :
  __call__ self = (r, self') ->
  class_of self' = class_of self /\ ndvi self' = ndvi self /\
  red_band self' = red_band self /\ nan_mask self' = nan_mask self /\
  emissivity_soil self' = emissivity_soil self /\
  emissivity_veg self' = emissivity_veg self.
Proof.
  intros E.
  destruct (call_post (fun _ => True) admits_any _ _ _ E) as [F _].
  unfold frame in F. rewrite F. now repeat split.
Qed.

Lemma call_changes_only_emissivity_witness :
  __call__ (U := example_utils)
    (fresh ClassComputeMonoWindowEmissivity nan_red_ndvi None 0.97 0.99) =
  (Ok (array [1; 1]%nat [0.97]),
   set_emissivity (array [1; 1]%nat [0.97])
     (fresh ClassComputeMonoWindowEmissivity nan_red_ndvi None 0.97 0.99)) /\
  ndvi (set_emissivity (array [1; 1]%nat [0.97])
          (fresh ClassComputeMonoWindowEmissivity nan_red_ndvi None
             0.97 0.99)) = nan_red_ndvi.
Proof.
  assert (E : __call__ (U := example_utils)
    (fresh ClassComputeMonoWindowEmissivity nan_red_ndvi None 0.97 0.99) =
  (Ok (array [1; 1]%nat [0.97]),
   set_emissivity (array [1; 1]%nat [0.97])
     (fresh ClassComputeMonoWindowEmissivity nan_red_ndvi None 0.97 0.99)))
    by (vm_compute; reflexivity).
  split; [exact E|].
  exact (proj1 (proj2 (call_changes_only_emissivity _ _ _ E))).
Defined.

Lemma new_class c nd red self : new c nd red = Ok self -> class_of self = c.
Proof.
  destruct c;
    unfold new, ComputeMonoWindowEmissivity.__init__,
      ComputeEmissivityNBEM.__init__, ComputeEmissivityGopinadh.__init__,
      EmissivityParent.__init__;
    destruct (Nat.eqb _ _); try discriminate; intros E;
    now injection E as <-.
Qed.

Lemma new_raises c nd red e :
  new c nd red = Raise e -> not_implemented e = false.
Proof.
  destruct c;
    unfold new, ComputeMonoWindowEmissivity.__init__,
      ComputeEmissivityNBEM.__init__, ComputeEmissivityGopinadh.__init__,
      EmissivityParent.__init__;
    destruct (Nat.eqb _ _); try discriminate; intros E;
    now injection E as <-.
Qed.

Lemma invoke_never_not_implemented {U : Utils} c nd red :
  c <> ClassEmissivityParent ->
  match fst (invoke c nd red) with
  | Raise e => not_implemented e
  | Ok _ => false
  end = false.
Proof.
  intros Hc. unfold invoke. destruct (new c nd red) as [self|e] eqn:N.
  - destruct (__call__ self) as [r self'] eqn:C. simpl.
    destruct r as [out|e]; trivial.
    destruct (call_post model_exception admits_model_exception _ _ _ C)
      as [_ R].
    apply (R (eq_ind_r (fun c' => c' <> _) Hc (new_class _ _ _ _ N)) e eq_refl).
  - simpl. exact (new_raises _ _ _ _ N).
Qed.

Lemma get_method_supported method :
  existsb (String.eqb method) EMISSIVITY_METHODS = true ->
  exists c, Emissivity.get_method method = Ok c /\ c <> ClassEmissivityParent.
Proof.
  unfold EMISSIVITY_METHODS, Emissivity.get_method. simpl.
  destruct (String.eqb method "avdan");
    [intros _; eexists; split; [reflexivity|discriminate]|].
  destruct (String.eqb method "xiaolei");
    [intros _; eexists; split; [reflexivity|discriminate]|].
  destruct (String.eqb method "gopinadh");
    [intros _; eexists; split; [reflexivity|discriminate]|].
  discriminate.
Qed.

(** X7.  Through the dispatcher no [NotImplementedError] is ever raised,
    whatever the method name, the arrays and [emissivity.utils]: the
    fallback of [get_method] is shut off by the assert that precedes it,
    and the base class, whose [_compute_emissivity] raises it, is never
    selected. *)
Theorem dispatcher_never_raises_not_implemented {U : Utils} nd red method :
  match fst (Emissivity.__call__ (Emissivity.__init__ nd red) method) with
  | Raise e => not_implemented e
  | Ok _ => false
  end = false.
Proof.
  unfold Emissivity.__call__.
  destruct (existsb (String.eqb method) EMISSIVITY_METHODS) eqn:E;
    [|reflexivity].
  destruct (get_method_supported method E) as (c & -> & Hc).
  now apply invoke_never_not_implemented.
Qed.

(** X11.  [get_method] returns a class exactly for the names listed in
    [EMISSIVITY_METHODS], never the base class, and the dispatcher then
    returns what constructing and calling that class returns; "xiaolei"
    selects the NBEM model and "gopinadh" the Gopinadh model. *)
Theorem get_method_matches_methods {U : Utils} nd red method :
  ((exists c, Emissivity.get_method method = Ok c) <->
   In method EMISSIVITY_METHODS) /\
  (forall c, Emissivity.get_method method = Ok c ->
     c <> ClassEmissivityParent /\
     Emissivity.__call__ (Emissivity.__init__ nd red) method =
     invoke c nd red) /\
  Emissivity.get_method "xiaolei" = Ok ClassComputeEmissivityNBEM /\
  Emissivity.get_method "gopinadh" = Ok ClassComputeEmissivityGopinadh.
Proof.
  assert (Hin : In method EMISSIVITY_METHODS <->
                existsb (String.eqb method) EMISSIVITY_METHODS = true).
  { rewrite existsb_exists. split.
    - intros H. exists method. split; [exact H|apply String.eqb_refl].
    - intros (m & H & E). apply String.eqb_eq in E. now subst. }
  assert (Hok : forall c, Emissivity.get_method method = Ok c ->
                  existsb (String.eqb method) EMISSIVITY_METHODS = true).
  { intros c. unfold Emissivity.get_method, EMISSIVITY_METHODS. simpl.
    destruct (String.eqb method "avdan"); trivial.
    destruct (String.eqb method "xiaolei"); trivial.
    destruct (String.eqb method "gopinadh"); trivial. discriminate. }
  repeat split.
  - intros [c Hc]. apply Hin. now apply (Hok c).
  - intros H. apply Hin in H.
    destruct (get_method_supported method H) as (c & Hc & _). now exists c.
  - destruct (get_method_supported method (Hok c H)) as (c' & Hc' & Hp).
    congruence.
  - unfold Emissivity.__call__. now rewrite (Hok c H), H.
Qed.

(** ** The index sets of the classifier *)

Lemma ravel_bound sh : forall ix k,
  ravel sh ix = Some k -> (k < size_of sh)%nat.
Proof.
  induction sh as [|d sh IH]; intros [|i ix] k; simpl; try discriminate.
  - intros E. injection E as <-. lia.
  - destruct (Nat.ltb_spec i d) as [Hi|]; [|discriminate].
    destruct (ravel sh ix) as [r|] eqn:R; [|discriminate].
    simpl. intros E. injection E as <-.
    specialize (IH _ _ R). nia.
Qed.

Lemma unravel_ravel sh : forall ix k,
  ravel sh ix = Some k -> unravel sh k = ix.
Proof.
  induction sh as [|d sh IH]; intros [|i ix] k; simpl; try discriminate.
  - reflexivity.
  - destruct (Nat.ltb_spec i d) as [Hi|]; [|discriminate].
    destruct (ravel sh ix) as [r|] eqn:R; [|discriminate].
    simpl. intros E. injection E as <-.
    pose proof (ravel_bound _ _ _ R) as Hr.
    assert (Hq : ((i * size_of sh + r) / size_of sh = i)%nat).
    { symmetry. apply (Nat.div_unique _ _ i r); lia. }
    assert (Hm : ((i * size_of sh + r) mod size_of sh = r)%nat).
    { symmetry. apply (Nat.mod_unique _ _ i r); lia. }
    rewrite Hq, Hm. f_equal. now apply IH.
Qed.

(** [np.where] returns exactly the coordinates of the true entries. *)
Lemma where_spec (m : ndarray bool) ix :
  wf m ->
  (In ix (where_ m) <->
   exists k, ravel (shape m) ix = Some k /\ pixel m k = Some true).
Proof.
  intros Hwf. unfold where_, pixel. rewrite in_map_iff. split.
  - intros (k & <- & Hk). apply In_nonzero_from in Hk.
    rewrite Nat.sub_0_r in Hk. destruct Hk as [_ Hk]. exists k.
    split; [|exact Hk]. apply ravel_unravel. rewrite <- Hwf.
    apply nth_error_Some. congruence.
  - intros (k & R & Hk). exists k. split; [now apply unravel_ravel|].
    apply In_nonzero_from. rewrite Nat.sub_0_r. split; [lia|exact Hk].
Qed.

Lemma NoDup_nonzero_from l : forall k, NoDup (nonzero_from k l).
Proof.
  induction l as [|b l IH]; intros k; simpl; [constructor|].
  destruct b; [|apply IH]. constructor; [|apply IH].
  intros H. apply nonzero_from_bounds in H. lia.
Qed.

(** [np.where] lists no coordinate twice. *)
Lemma NoDup_where (m : ndarray bool) : wf m -> NoDup (where_ m).
Proof.
  intros Hwf. unfold where_.
  apply NoDup_map_NoDup_ForallPairs; [|apply NoDup_nonzero_from].
  intros k k' Hk Hk' E.
  apply nonzero_from_bounds in Hk, Hk'. simpl in Hk, Hk'.
  assert (R : ravel (shape m) (unravel (shape m) k) = Some k)
    by (apply ravel_unravel; rewrite <- Hwf; lia).
  assert (R' : ravel (shape m) (unravel (shape m) k') = Some k')
    by (apply ravel_unravel; rewrite <- Hwf; lia).
  congruence.
Qed.

Lemma map1_wf {A B} (f : A -> B) (a : ndarray A) : wf a -> wf (map1 f a).
Proof. unfold wf. simpl. now rewrite length_map. Qed.

Lemma where_map1_spec (p : float -> bool) nd ix :
  wf nd ->
  (In ix (where_ (map1 p nd)) <->
   exists k x, ravel (shape nd) ix = Some k /\ pixel nd k = Some x /\
               p x = true).
Proof.
  intros Hwf. rewrite where_spec.
  - unfold pixel, map1. simpl. split.
    + intros (k & R & Hk). rewrite nth_error_map in Hk.
      destruct (nth_error (data nd) k) as [x|] eqn:Hx; [|discriminate].
      simpl in Hk. injection Hk as Hk. now exists k, x.
    + intros (k & x & R & Hx & Hp). exists k. split; [exact R|].
      now rewrite nth_error_map, Hx, <- Hp.
  - unfold wf in *. simpl. now rewrite length_map.
Qed.

(** X8.  [_get_landcover_mask_indices] raises nothing and returns, for
    each class, exactly the in-bounds coordinates of the pixels whose NDVI
    satisfies the class's two comparisons, each once; no coordinate is in
    two of the three lists. *)
Theorem landcover_indices_characterised self :
  wf (ndvi self) ->
  exists idx,
    EmissivityParent._get_landcover_mask_indices self = (Ok idx, self) /\
    NoDup (baresoil idx) /\ NoDup (vegetation idx) /\ NoDup (mixed idx) /\
    forall ix,
      (In ix (baresoil idx) <->
       exists k x, ravel (shape (ndvi self)) ix = Some k /\
                   pixel (ndvi self) k = Some x /\
                   (-1 <=? x) = true /\ (x <? 0.2) = true) /\
      (In ix (vegetation idx) <->
       exists k x, ravel (shape (ndvi self)) ix = Some k /\
                   pixel (ndvi self) k = Some x /\
                   (0.5 <? x) = true /\ (x <=? 1) = true) /\
      (In ix (mixed idx) <->
       exists k x, ravel (shape (ndvi self)) ix = Some k /\
                   pixel (ndvi self) k = Some x /\
                   (0.2 <=? x) = true /\ (x <=? 0.5) = true) /\
      ~ (In ix (baresoil idx) /\ In ix (vegetation idx)) /\
      ~ (In ix (baresoil idx) /\ In ix (mixed idx)) /\
      ~ (In ix (vegetation idx) /\ In ix (mixed idx)).
Proof.
  intros Hwf. eexists. split; [apply run_get_landcover_mask_indices|].
  cbn [baresoil vegetation mixed].
  do 3 (split; [apply NoDup_where, map1_wf, Hwf|]).
  intros ix.
  rewrite !where_map1_spec by exact Hwf.
  unfold is_baresoil, is_vegetation, is_mixed, F64.geb, F64.gtb.
  assert (Hdis : forall p q : float -> bool,
            (forall x, p x && q x = false) ->
            ~ ((exists k x, ravel (shape (ndvi self)) ix = Some k /\
                            pixel (ndvi self) k = Some x /\ p x = true) /\
               (exists k x, ravel (shape (ndvi self)) ix = Some k /\
                            pixel (ndvi self) k = Some x /\ q x = true))).
  { intros p q D [(k & x & R & Hx & Hp) (k' & x' & R' & Hx' & Hq)].
    assert (k' = k) by congruence. subst k'.
    assert (x' = x) by congruence. subst x'.
    specialize (D x). rewrite Hp, Hq in D. discriminate. }
  repeat split.
  - intros (k & x & R & Hx & Hp). apply andb_true_iff in Hp.
    now exists k, x.
  - intros (k & x & R & Hx & H1 & H2). exists k, x. now rewrite H1, H2.
  - intros (k & x & R & Hx & Hp). apply andb_true_iff in Hp.
    now exists k, x.
  - intros (k & x & R & Hx & H1 & H2). exists k, x. now rewrite H1, H2.
  - intros (k & x & R & Hx & Hp). apply andb_true_iff in Hp.
    now exists k, x.
  - intros (k & x & R & Hx & H1 & H2). exists k, x. now rewrite H1, H2.
  - apply (Hdis _ _ Classifier.baresoil_vegetation).
  - apply (Hdis _ _ Classifier.baresoil_mixed).
  - apply (Hdis _ _ Classifier.vegetation_mixed).
Qed.

Lemma scene_ndvi_wf : wf scene_ndvi.
Proof. reflexivity. Defined.

Lemma landcover_indices_characterised_witness :
  wf (ndvi (fresh ClassComputeMonoWindowEmissivity scene_ndvi None
              0.97 0.99)) /\
  fst (EmissivityParent._get_landcover_mask_indices
         (fresh ClassComputeMonoWindowEmissivity scene_ndvi None 0.97 0.99)) =
  Ok {| baresoil := [[0; 0]%nat];
        vegetation := [[1; 0]%nat];
        mixed := [[0; 1]%nat] |}.
Proof.
  split; [exact scene_ndvi_wf|].
  destruct (landcover_indices_characterised
              (fresh ClassComputeMonoWindowEmissivity scene_ndvi None
                 0.97 0.99) scene_ndvi_wf) as (idx & E & _).
  rewrite E. vm_compute in E. injection E as <-. reflexivity.
Defined.
